(** * A shallow embedding of the static-site build pipeline (src/main.py)

    The development follows the layout of [main.py]: Python string
    primitives, the responsive-image rewriter ([_render_attributes],
    [_build_picture_element], [ImageReplacementParser],
    [replace_images_with_processed]), the front-matter date normalisation of
    [parse_file], and the two branches of [main] (single-file rebuild and
    full build with slug reconciliation, draft filtering and post sorting),
    followed by [clean_output], [has_file_changed] and [load_templates].

    Library calls whose code is not part of the repository ([html.parser],
    [datetime.fromisoformat], [datetime.strptime], [yaml], [markdown], the
    template engine) are parameters of the sections that use them; concrete
    reference instances are given for closed examples. *)

From Stdlib Require Import ZArith Ascii String List Lia Permutation Sorted.
From stdpp Require Import gmap strings list fin_maps pretty sorting.

(** ** Python string primitives *)

Module PyStr.

Definition dquote : string := String "034"%char "".
Definition squote : string := String "039"%char "".

(** [not s] for a Python string. *)
Definition is_empty (s : string) : bool :=
  match s with "" => true | _ => false end.

Definition lower_char (c : ascii) : ascii :=
  let n := nat_of_ascii c in
  if Nat.leb 65 n && Nat.leb n 90 then ascii_of_nat (n + 32) else c.

(** [s.lower()] on ASCII text. *)
Fixpoint lower (s : string) : string :=
  match s with
  | "" => ""
  | String c s' => String (lower_char c) (lower s')
  end.

(** [s[n:]]. *)
Fixpoint drop (n : nat) (s : string) : string :=
  match n, s with
  | O, _ => s
  | S n', String _ s' => drop n' s'
  | S _, "" => ""
  end.

(** [s.startswith(p)]. *)
Definition startswith (s p : string) : bool := String.prefix p s.

(** First occurrence of a non-empty [sep] in [s]: the text before it and
    the text after it, as [s.split(sep, 1)] returns them; [None] when
    [sep not in s]. *)
Fixpoint find_sub (sep s : string) : option (string * string) :=
  if String.prefix sep s then Some ("", drop (String.length sep) s)
  else match s with
       | "" => None
       | String c s' =>
           match find_sub sep s' with
           | Some (a, b) => Some (String c a, b)
           | None => None
           end
       end.

(** [sep in s]. *)
Definition contains (sep s : string) : bool :=
  match find_sub sep s with Some _ => true | None => false end.

(** [s.split(sep, 1)[0]]. *)
Definition split_head (sep s : string) : string :=
  match find_sub sep s with Some (a, _) => a | None => s end.

(** [s.lstrip(c)] for a one-character set. *)
Fixpoint lstrip (c : ascii) (s : string) : string :=
  match s with
  | "" => ""
  | String a s' => if Ascii.eqb a c then lstrip c s' else s
  end.

(** [sep.join(parts)]. *)
Fixpoint join (sep : string) (parts : list string) : string :=
  match parts with
  | [] => ""
  | [p] => p
  | p :: rest => p +:+ sep +:+ join sep rest
  end.

(** [os.path.basename] (POSIX): the text after the last slash. *)
Fixpoint basename (p : string) : string :=
  match p with
  | "" => ""
  | String _ p' => if contains "/" p then basename p' else p
  end.

(** [os.path.splitext(p)[0]]: the extension starts at the last dot of the
    base name, unless that base name consists of leading dots only up to
    that dot. *)
Fixpoint rsplit_dot (s : string) : string :=
  match s with
  | "" => ""
  | String c s' => if contains "." s' then String c (rsplit_dot s')
                   else if Ascii.eqb c "."%char then "" else s
  end.

Definition splitext_root (p : string) : string :=
  if contains "." (lstrip "."%char (basename p)) then rsplit_dot p else p.

(** [html.escape(s, quote=True)]. *)
Definition escape_char (c : ascii) : string :=
  if Ascii.eqb c "&"%char then "&amp;"
  else if Ascii.eqb c "<"%char then "&lt;"
  else if Ascii.eqb c ">"%char then "&gt;"
  else if Ascii.eqb c "034"%char then "&quot;"
  else if Ascii.eqb c "039"%char then "&#x27;"
  else String c "".

Fixpoint escape (s : string) : string :=
  match s with
  | "" => ""
  | String c s' => escape_char c +:+ escape s'
  end.

End PyStr.

Import PyStr.

(** ** Image manifest *)

(** One resized rendition of an image, as decoded from the JSON manifest;
    either key may be missing. *)
Record variant := Variant { v_path : option string; v_width : option Z }.

(** [manifest_entry]: format name to its list of variants. *)
Abbreviation manifest_entry := (gmap string (list variant)).
(** The manifest: image base name to its entry. *)
Abbreviation Manifest := (gmap string (gmap string (list variant))).

(** Attributes of a start tag as [html.parser] reports them: a name and a
    value, [None] for an attribute written without [=]. *)
Abbreviation attr := (string * option string)%type.

(** Truthiness of [v.get(key)] for a string and for an integer. *)
Definition truthy_str (o : option string) : bool :=
  match o with Some s => negb (is_empty s) | None => false end.
Definition truthy_int (o : option Z) : bool :=
  match o with Some z => negb (Z.eqb z 0) | None => false end.

(** [v.get("path") and v.get("width")]. *)
Definition usable (v : variant) : bool :=
  truthy_str (v_path v) && truthy_int (v_width v).

Definition width_of (v : variant) : Z := default 0%Z (v_width v).
Definition path_of (v : variant) : string := default "" (v_path v).

(** Python's [sorted(xs, key=...)]: a stable ascending sort. *)
Fixpoint insert_by {A} (key : A → Z) (x : A) (l : list A) : list A :=
  match l with
  | [] => [x]
  | y :: l' => if Z.leb (key x) (key y) then x :: l else y :: insert_by key x l'
  end.

Fixpoint sorted_by {A} (key : A → Z) (l : list A) : list A :=
  match l with
  | [] => []
  | x :: l' => insert_by key x (sorted_by key l')
  end.

(** [sorted((v for v in variants if v.get("path") and v.get("width")),
            key=lambda item: item["width"])]. *)
Definition sorted_usable (variants : list variant) : list variant :=
  sorted_by width_of (filter (λ v, Is_true (usable v)) variants).

(** [f"/{variant['path']} {variant['width']}w"]. *)
Definition srcset_item (v : variant) : string :=
  "/" +:+ path_of v +:+ " " +:+ pretty (width_of v) +:+ "w".

Definition srcset_of (vs : list variant) : string :=
  join ", " (map srcset_item vs).

(** ** [_render_attributes] *)

Definition _render_attributes (attrs : list attr) : string :=
  String.concat ""
    (map (λ a : attr,
            match a.2 with
            | None => " " +:+ a.1
            | Some value =>
                " " +:+ a.1 +:+ "=" +:+ dquote +:+ escape value +:+ dquote
            end) attrs).

(** ** [_build_picture_element] *)

Definition format_priority : list string := ["avif"; "webp"; "jpg"; "jpeg"; "png"].
Definition fallback_priority : list string := ["jpg"; "jpeg"; "png"; "webp"; "avif"].

(** [mime_overrides.get(fmt, f"image/{fmt}")]. *)
Definition mime_of (fmt : string) : string :=
  if decide (fmt = "jpg") then "image/jpeg"
  else if decide (fmt = "jpeg") then "image/jpeg"
  else "image/" +:+ fmt.

(** [{name.lower(): value for name, value in attrs}]: a later attribute of
    the same name overwrites an earlier one. *)
Definition attrs_dict (attrs : list attr) : gmap string (option string) :=
  foldl (λ d (a : attr), <[lower a.1 := a.2]> d) ∅ attrs.

(** [d.get(key)] on such a dictionary: a missing key and a valueless
    attribute both give Python's [None]. *)
Definition dict_get (d : gmap string (option string)) (key : string) : option string :=
  mjoin (d !! key).

(** [attrs_dict.get("data-img-sizes") or attrs_dict.get("sizes") or "100vw"]. *)
Definition sizes_value_of (attrs : list attr) : string :=
  let d := attrs_dict attrs in
  if truthy_str (dict_get d "data-img-sizes") then default "" (dict_get d "data-img-sizes")
  else if truthy_str (dict_get d "sizes") then default "" (dict_get d "sizes")
  else "100vw".

Definition source_tag (mime srcset sizes_value : string) : string :=
  "<source type=" +:+ dquote +:+ mime +:+ dquote +:+
  " srcset=" +:+ dquote +:+ srcset +:+ dquote +:+
  " sizes=" +:+ dquote +:+ sizes_value +:+ dquote +:+ ">".

(** One iteration of [for fmt in format_priority], on the list [sources]
    built so far. *)
Definition sources_step (entry : manifest_entry) (sizes_value : string)
    (sources : list string) (fmt : string) : list string :=
  match entry !! fmt with
  | None | Some [] => sources
  | Some variants =>
      match sorted_usable variants with
      | [] => sources
      | sorted_variants =>
          sources ++ [source_tag (mime_of fmt) (srcset_of sorted_variants) sizes_value]
      end
  end.

Definition build_sources (entry : manifest_entry) (sizes_value : string) : list string :=
  foldl (sources_step entry sizes_value) [] format_priority.

(** [manifest_entry.get(fmt)] is truthy. *)
Definition has_variants (entry : manifest_entry) (fmt : string) : bool :=
  match entry !! fmt with
  | None | Some [] => false
  | Some _ => true
  end.

Definition dropped_attr (name : string) : bool :=
  bool_decide (lower name ∈ ["src"; "srcset"; "sizes"; "data-img-sizes"]).

Definition _build_picture_element (attrs : list attr) (entry : manifest_entry)
    : option string :=
  if decide (entry = ∅) then None else
  let sizes_value := sizes_value_of attrs in
  let sources := build_sources entry sizes_value in
  if decide (sources = []) then None else
  match List.find (has_variants entry) fallback_priority with
  | None => None
  | Some fallback_format =>
      let fallback_variants := sorted_usable (default [] (entry !! fallback_format)) in
      match last fallback_variants with
      | None => None
      | Some largest =>
          let fallback_src := "/" +:+ path_of largest in
          let fallback_srcset := srcset_of fallback_variants in
          let filtered_attrs :=
            filter (λ a : attr, ¬ Is_true (dropped_attr a.1)) attrs in
          let fallback_attrs :=
            [("src", Some fallback_src)] ++ filtered_attrs
            ++ (if is_empty fallback_srcset then []
                else [("srcset", Some fallback_srcset)])
            ++ [("sizes", Some sizes_value)] in
          let img_tag := "<img" +:+ _render_attributes fallback_attrs +:+ ">" in
          let sources_html := String.concat "" sources in
          Some ("<picture>" +:+ sources_html +:+ img_tag +:+ "</picture>")
      end
  end.

(** ** [ImageReplacementParser] *)

(** The callbacks [html.parser.HTMLParser] issues while it scans a
    document.  A start tag carries the text [get_starttag_text()] returns
    during its callback. *)
Inductive event :=
  | StartTag (tag : string) (attrs : list attr) (raw : string)
  | StartEndTag (tag : string) (attrs : list attr) (raw : string)
  | EndTag (tag : string)
  | Data (data : string)
  | Comment (data : string)
  | Decl (decl : string)
  | EntityRef (name : string)
  | CharRef (name : string)
  | ProcessingInstruction (data : string).

Record ImageReplacementParser := Parser {
  manifest : Manifest;
  output : list string
}.

(** [self.output.append(s)]. *)
Definition append (s : string) (self : ImageReplacementParser) : ImageReplacementParser :=
  {| manifest := manifest self; output := output self ++ [s] |}.

(** [src.split("?", 1)[0].split("#", 1)[0].lstrip("/")], then a leading
    ["./"] is cut. *)
Definition normalize_src (src : string) : string :=
  let normalized := lstrip "/"%char (split_head "#" (split_head "?" src)) in
  if startswith normalized "./" then drop 2 normalized else normalized.

Definition _build_replacement (self : ImageReplacementParser) (attrs : list attr)
    : option string :=
  match dict_get (attrs_dict attrs) "src" with
  | None => None
  | Some src =>
      if is_empty src then None else
      (* ["assets/images/" not in normalized], and otherwise
         [normalized.split("assets/images/", 1)[1]] *)
      match find_sub "assets/images/" (normalize_src src) with
      | None => None
      | Some (_, relative) =>
          match manifest self !! basename relative with
          | None => None
          | Some manifest_entry =>
              if decide (manifest_entry = ∅) then None
              else _build_picture_element attrs manifest_entry
          end
      end
  end.

Definition _handle_start (self : ImageReplacementParser) (tag : string)
    (attrs : list attr) (raw : string) : ImageReplacementParser :=
  let passthrough := if is_empty raw then self else append raw self in
  if decide (lower tag = "img") then
    match _build_replacement self attrs with
    | Some replacement =>
        if is_empty replacement then passthrough else append replacement self
    | None => passthrough
    end
  else passthrough.

(** Dispatch of one callback to the handler the class defines for it. *)
Definition handle (self : ImageReplacementParser) (e : event) : ImageReplacementParser :=
  match e with
  | StartTag tag attrs raw => _handle_start self tag attrs raw
  | StartEndTag tag attrs raw => _handle_start self tag attrs raw
  | EndTag tag => append ("</" +:+ tag +:+ ">") self
  | Data data => append data self
  | Comment data => append ("<!--" +:+ data +:+ "-->") self
  | Decl decl => append ("<!" +:+ decl +:+ ">") self
  | EntityRef name => append ("&" +:+ name +:+ ";") self
  | CharRef name => append ("&#" +:+ name +:+ ";") self
  | ProcessingInstruction data => append ("<?" +:+ data +:+ ">") self
  end.

Definition get_html (self : ImageReplacementParser) : string :=
  String.concat "" (output self).

(** ** [replace_images_with_processed] *)

Section Rewriter.

(** The callbacks [parser.feed(html); parser.close()] issue for a
    document, in order. *)
Variable scan : string → list event.

Definition feed (self : ImageReplacementParser) (html : string) : ImageReplacementParser :=
  foldl handle self (scan html).

Definition replace_images_with_processed (html : string) (m : Manifest) : string :=
  if is_empty html || bool_decide (m = ∅) then html
  else get_html (feed {| manifest := m; output := [] |} html).

End Rewriter.

(** ** A reference scanner

    A small tokenizer for documents made of text, start tags with quoted,
    bare or valueless attributes, and end tags.  On such documents it issues
    the callbacks [html.parser] does (tag and attribute names lower-cased,
    the start tag text kept); it instantiates [scan] in closed examples. *)

Module RefScanner.

Inductive chunk := TextChunk (s : string) | TagChunk (s : string).

Definition flush (cur : string) : list chunk :=
  if is_empty cur then [] else [TextChunk (String.rev cur)].

(** Cuts the document at [<] and [>]; [cur] holds the current chunk in
    reverse. *)
Fixpoint chunks (in_tag : bool) (cur : string) (s : string) : list chunk :=
  match s with
  | "" => flush cur
  | String c s' =>
      if in_tag then
        if Ascii.eqb c ">"%char
        then TagChunk (String.rev (String c cur)) :: chunks false "" s'
        else chunks true (String c cur) s'
      else
        if Ascii.eqb c "<"%char
        then flush cur ++ chunks true (String c "") s'
        else chunks false (String c cur) s'
  end.

Inductive attr_state :=
  | Between
  | InName (name_rev : string)
  | AfterEq (name : string)
  | Quoted (name : string) (q : ascii) (value_rev : string)
  | Bare (name : string) (value_rev : string).

Definition is_quote (c : ascii) : bool :=
  Ascii.eqb c "034"%char || Ascii.eqb c "039"%char.

Definition finish (st : attr_state) : list attr :=
  match st with
  | Between => []
  | InName n => [(lower (String.rev n), None)]
  | AfterEq n => [(n, Some "")]
  | Quoted n _ v | Bare n v => [(n, Some (String.rev v))]
  end.

Fixpoint lex_attrs (st : attr_state) (s : string) : list attr :=
  match s with
  | "" => finish st
  | String c s' =>
      match st with
      | Between =>
          if Ascii.is_space c then lex_attrs Between s'
          else lex_attrs (InName (String c "")) s'
      | InName n =>
          if Ascii.eqb c "="%char then lex_attrs (AfterEq (lower (String.rev n))) s'
          else if Ascii.is_space c then finish st ++ lex_attrs Between s'
          else lex_attrs (InName (String c n)) s'
      | AfterEq n =>
          if is_quote c then lex_attrs (Quoted n c "") s'
          else if Ascii.is_space c then finish st ++ lex_attrs Between s'
          else lex_attrs (Bare n (String c "")) s'
      | Quoted n q v =>
          if Ascii.eqb c q then finish st ++ lex_attrs Between s'
          else lex_attrs (Quoted n q (String c v)) s'
      | Bare n v =>
          if Ascii.is_space c then finish st ++ lex_attrs Between s'
          else lex_attrs (Bare n (String c v)) s'
      end
  end.

(** The tag name: the text up to the first blank. *)
Fixpoint tag_name (s : string) : string :=
  match s with
  | "" => ""
  | String c s' => if Ascii.is_space c then "" else String c (tag_name s')
  end.

Definition tag_event (raw : string) : event :=
  let inner := String.rev (drop 1 (String.rev (drop 1 raw))) in
  if startswith inner "/" then EndTag (lower (tag_name (drop 1 inner)))
  else
    let name := tag_name inner in
    StartTag (lower name) (lex_attrs Between (drop (String.length name) inner)) raw.

Definition scan (html : string) : list event :=
  map (λ c, match c with
            | TextChunk s => Data s
            | TagChunk raw => tag_event raw
            end) (chunks false "" html).

End RefScanner.

(** ** Front-matter values *)

(** [datetime.datetime]: calendar date and clock time. *)
Record datetime := DateTime {
  year : Z; month : Z; day : Z; hour : Z; minute : Z; second : Z
}.

(** [datetime.min]. *)
Definition datetime_min : datetime := DateTime 1 1 1 0 0 0.

(** Position on the time line: [datetime] objects compare field by field
    from [year] down to [second], which for fields within their calendar
    ranges is the order of this number. *)
Definition dt_ord (d : datetime) : Z :=
  (((((year d * 13 + month d) * 32 + day d) * 24 + hour d) * 60 + minute d) * 60
   + second d)%Z.

(** What [yaml.safe_load] puts into the front-matter dictionary. *)
Inductive pyval :=
  | VNone
  | VBool (b : bool)
  | VInt (z : Z)
  | VStr (s : string)
  | VDate (y m d : Z)
  | VDateTime (d : datetime)
  | VList (items : list string).

(** The page dictionary [page_config] / [page_data]. *)
Abbreviation page_data := (gmap string pyval).

Definition pad2 (n : Z) : string :=
  if Z.ltb n 10 then "0" +:+ pretty n else pretty n.
Definition pad4 (n : Z) : string :=
  if Z.ltb n 10 then "000" +:+ pretty n
  else if Z.ltb n 100 then "00" +:+ pretty n
  else if Z.ltb n 1000 then "0" +:+ pretty n
  else pretty n.

(** [d.strftime("%Y-%m-%d")] (years print with four digits). *)
Definition strftime_ymd (d : datetime) : string :=
  pad4 (year d) +:+ "-" +:+ pad2 (month d) +:+ "-" +:+ pad2 (day d).

(** [repr] of a string inside a list: single quotes unless the text has a
    single quote and no double quote; backslash and the quote in use are
    escaped (control characters are outside this model). *)
Definition repr_char (q c : ascii) : string :=
  if Ascii.eqb c "092"%char then String c (String c "")
  else if Ascii.eqb c q then String "092"%char (String c "")
  else String c "".

Definition repr_str (s : string) : string :=
  let q := if contains squote s && negb (contains dquote s)
           then "034"%char else "039"%char in
  String q ((fix go (t : string) : string :=
               match t with
               | "" => String q ""
               | String c t' => repr_char q c +:+ go t'
               end) s).

(** [str(value)]. *)
Definition py_str (v : pyval) : string :=
  match v with
  | VNone => "None"
  | VBool true => "True"
  | VBool false => "False"
  | VInt z => pretty z
  | VStr s => s
  | VDate y m d => pad4 y +:+ "-" +:+ pad2 m +:+ "-" +:+ pad2 d
  | VDateTime d =>
      strftime_ymd d +:+ " " +:+ pad2 (hour d) +:+ ":" +:+ pad2 (minute d)
      +:+ ":" +:+ pad2 (second d)
  | VList items => "[" +:+ join ", " (map repr_str items) +:+ "]"
  end.

(** Truthiness of a value. *)
Definition truthy (v : pyval) : bool :=
  match v with
  | VNone => false
  | VBool b => b
  | VInt z => negb (Z.eqb z 0)
  | VStr s => negb (is_empty s)
  | VDate _ _ _ | VDateTime _ => true
  | VList items => match items with [] => false | _ => true end
  end.

(** [d.get(key)], with Python's [None] for a missing key. *)
Definition get (d : page_data) (key : string) : pyval := default VNone (d !! key).

(** ** [parse_file] *)

Definition CONTENT_DIR : string := "content".
Definition POSTS_DIR : string := "content/posts".
Definition OUTPUT_DIR : string := ".".

(** [s.split("/")]. *)
Fixpoint split_slash (cur s : string) : list string :=
  match s with
  | "" => [String.rev cur]
  | String c s' =>
      if Ascii.eqb c "/"%char then String.rev cur :: split_slash "" s'
      else split_slash (String c cur) s'
  end.

(** The loop of [posixpath.normpath] over the components; [new_comps] is
    kept in reverse. *)
Fixpoint norm_comps (initial_slashes : bool) (new_comps comps : list string) : list string :=
  match comps with
  | [] => List.rev new_comps
  | comp :: rest =>
      if decide (comp = "" ∨ comp = ".") then norm_comps initial_slashes new_comps rest
      else if decide (comp ≠ ".."
                      ∨ (initial_slashes = false ∧ new_comps = [])
                      ∨ head new_comps = Some "..")
      then norm_comps initial_slashes (comp :: new_comps) rest
      else norm_comps initial_slashes (tail new_comps) rest
  end.

(** [os.path.normpath] (POSIX). *)
Definition normpath (path : string) : string :=
  if is_empty path then "." else
  let initial_slashes := startswith path "/" in
  let lead :=
    if initial_slashes then
      if startswith path "//" && negb (startswith path "///") then "//" else "/"
    else "" in
  let joined := lead +:+ join "/" (norm_comps initial_slashes [] (split_slash "" path)) in
  if is_empty joined then "." else joined.

(** [os.path.join(a, b)] (POSIX). *)
Definition path_join (a b : string) : string :=
  if startswith b "/" then b
  else if is_empty a || startswith (String.rev a) "/" then a +:+ b
  else a +:+ "/" +:+ b.

(** The URL [parse_file] assigns to the document at [filepath]. *)
Definition page_url (filepath : string) : string :=
  let slug := splitext_root (basename filepath) in
  if startswith (normpath filepath) (normpath POSTS_DIR) then "/posts/" +:+ slug
  else if decide (slug = "index") then "/"
  else "/" +:+ slug.

Section ParseFile.

(** [datetime.fromisoformat]; [None] stands for the exception it raises. *)
Variable fromisoformat : string → option datetime.

(** The block under [# Normalize date to YYYY-MM-DD string]. *)
Definition normalize_date (page_config : page_data) : page_data :=
  match page_config !! "date" with
  | None => page_config
  | Some value =>
      if truthy value then
        match value with
        | VDateTime d => <["date" := VStr (strftime_ymd d)]> page_config
        | _ =>
            match fromisoformat (py_str value) with
            | Some parsed => <["date" := VStr (strftime_ymd parsed)]> page_config
            | None => page_config
            end
        end
      else page_config
  end.

(** Reading the file, splitting the front matter, [yaml.safe_load] and the
    markdown conversion: the front-matter dictionary and the HTML body, or
    [None] when the file does not exist. *)
Variable load_document : string → option (page_data * string).

Definition parse_file (filepath : string) : option (page_data * string) :=
  match load_document filepath with
  | None => None
  | Some (page_config, html_data) =>
      let page_config := <["url" := VStr (page_url filepath)]> page_config in
      Some (normalize_date page_config, html_data)
  end.

End ParseFile.

(** ** Reference date parsers

    Instances of the two [datetime] parsers for closed examples:
    [fromisoformat] on the extended calendar form [YYYY-MM-DD], optionally
    followed by one separator character and [HH[:MM[:SS]]] (fractions and
    offsets are outside this model), and [strptime] with the format
    [%Y-%m-%d]. *)

Module RefDatetime.

Definition digit (c : ascii) : option Z :=
  let n := nat_of_ascii c in
  if Nat.leb 48 n && Nat.leb n 57 then Some (Z.of_nat (n - 48)) else None.

(** Exactly [n] decimal digits at the head of [s]. *)
Fixpoint digits (n : nat) (acc : Z) (s : string) : option (Z * string) :=
  match n, s with
  | O, _ => Some (acc, s)
  | S n', String c s' => v ← digit c; digits n' (acc * 10 + v)%Z s'
  | S _, "" => None
  end.

Definition expect (c : ascii) (s : string) : option string :=
  match s with
  | String a s' => if Ascii.eqb a c then Some s' else None
  | "" => None
  end.

Definition is_leap (y : Z) : bool :=
  (y mod 4 =? 0)%Z && (negb (y mod 100 =? 0)%Z || (y mod 400 =? 0)%Z).

Definition days_in_month (y m : Z) : Z :=
  if (m =? 2)%Z then (if is_leap y then 29 else 28)%Z
  else if (m =? 4)%Z || (m =? 6)%Z || (m =? 9)%Z || (m =? 11)%Z then 30%Z
  else 31%Z.

(** The range checks of the [datetime] constructor on a date. *)
Definition valid_date (y m d : Z) : bool :=
  (1 <=? y)%Z && (y <=? 9999)%Z && (1 <=? m)%Z && (m <=? 12)%Z
  && (1 <=? d)%Z && (d <=? days_in_month y m)%Z.

Definition valid_time (h mi sec : Z) : bool :=
  (h <? 24)%Z && (mi <? 60)%Z && (sec <? 60)%Z.

(** [HH[:MM[:SS]]]. *)
Definition parse_time (s : string) : option (Z * Z * Z) :=
  '(h, s1) ← digits 2 0 s;
  match s1 with
  | "" => Some (h, 0%Z, 0%Z)
  | _ =>
      s2 ← expect ":" s1;
      '(mi, s3) ← digits 2 0 s2;
      match s3 with
      | "" => Some (h, mi, 0%Z)
      | _ =>
          s4 ← expect ":" s3;
          '(sec, s5) ← digits 2 0 s4;
          if is_empty s5 then Some (h, mi, sec) else None
      end
  end.

Definition fromisoformat (s : string) : option datetime :=
  '(y, s1) ← digits 4 0 s;
  s2 ← expect "-" s1;
  '(m, s3) ← digits 2 0 s2;
  s4 ← expect "-" s3;
  '(d, s5) ← digits 2 0 s4;
  if valid_date y m d then
    match s5 with
    | "" => Some (DateTime y m d 0 0 0)
    | String _ tstr =>
        '(h, mi, sec) ← parse_time tstr;
        if valid_time h mi sec then Some (DateTime y m d h mi sec) else None
    end
  else None.

(** A [%m] or [%d] field: two digits when they form a number from 1 to
    [hi], else one digit from 1 to 9. *)
Definition field (hi : Z) (s : string) : option (Z * string) :=
  match digits 2 0 s with
  | Some (v, rest) =>
      if (1 <=? v)%Z && (v <=? hi)%Z then Some (v, rest)
      else '(w, rest1) ← digits 1 0 s; if (1 <=? w)%Z then Some (w, rest1) else None
  | None => '(w, rest1) ← digits 1 0 s; if (1 <=? w)%Z then Some (w, rest1) else None
  end.

(** [%d] also accepts a blank followed by one digit. *)
Definition day_field (s : string) : option (Z * string) :=
  match field 31 s with
  | Some r => Some r
  | None => s1 ← expect " " s; '(w, rest) ← digits 1 0 s1;
            if (1 <=? w)%Z then Some (w, rest) else None
  end.

(** [datetime.strptime(s, "%Y-%m-%d")]. *)
Definition strptime (s : string) : option datetime :=
  '(y, s1) ← digits 4 0 s;
  s2 ← expect "-" s1;
  '(m, s3) ← field 12 s2;
  s4 ← expect "-" s3;
  '(d, s5) ← day_field s4;
  if is_empty s5 && valid_date y m d then Some (DateTime y m d 0 0 0) else None.

End RefDatetime.

(** ** Exceptions *)

(** The outcome of code that may raise: a value, or the name of the
    exception that ends [main]. *)
Inductive result (A : Type) :=
  | Ok (a : A)
  | Raise (exc : string).
Arguments Ok {A} a.
Arguments Raise {A} exc.

Global Instance result_ret : MRet result := λ A, Ok.
Global Instance result_bind : MBind result :=
  λ A B f m, match m with Ok a => f a | Raise exc => Raise exc end.

(** A [for] loop whose body may raise. *)
Fixpoint for_each {S A} (body : S → A → result S) (st : S) (l : list A) : result S :=
  match l with
  | [] => Ok st
  | x :: l' => st' ← body st x; for_each body st' l'
  end.

(** ** The output tree and the slug cache *)

Definition PAGE_SLUG_CACHE : string := ".cache/page-slugs.json".

(** The file [PAGE_SLUG_CACHE]: missing, not a JSON list, or a list of slugs. *)
Inductive cache_file :=
  | CacheAbsent
  | CacheUnreadable
  | CacheSlugs (slugs : list string).

(** The part of the file system [main] consults: the directories and the
    regular files, by the path they are addressed with, and the slug cache. *)
Record world := World {
  dirs : gset string;
  files : gset string;
  slug_cache : cache_file
}.

Definition isdir (p : string) (w : world) : bool := bool_decide (p ∈ dirs w).

(** [os.path.exists]. *)
Definition path_exists (p : string) (w : world) : bool :=
  bool_decide (p ∈ files w) || bool_decide (p ∈ dirs w).

(** [p] is the directory [d] or lies below it. *)
Definition under (d p : string) : bool :=
  bool_decide (p = d) || startswith p (d +:+ "/").

(** [shutil.rmtree(d)]: the directory goes with everything below it. *)
Definition rmtree (d : string) (w : world) : world :=
  {| dirs := filter (λ p, ¬ Is_true (under d p)) (dirs w);
     files := filter (λ p, ¬ Is_true (under d p)) (files w);
     slug_cache := slug_cache w |}.

Definition load_previous_slugs (w : world) : gset string :=
  match slug_cache w with
  | CacheSlugs slugs => list_to_set slugs
  | _ => ∅
  end.

(** [json.dump(sorted(slugs), f)]. *)
Definition save_current_slugs (slugs : gset string) (w : world) : world :=
  {| dirs := dirs w; files := files w;
     slug_cache := CacheSlugs (merge_sort String.le (elements slugs)) |}.

(** [os.remove(PAGE_SLUG_CACHE)] when the file exists. *)
Definition remove_slug_cache (w : world) : world :=
  match slug_cache w with
  | CacheAbsent => w
  | _ => {| dirs := dirs w; files := files w; slug_cache := CacheAbsent |}
  end.

(** ** [main], single-file rebuild ([--file]) *)

(** The functions the branch calls on a file that still exists. *)
Inductive call :=
  | Call_has_file_changed (file : string)
  | Call_parse_file (file : string)
  | Call_render_page (url : string).

(** The branch [if args.file:]: the tree it leaves and the calls to the
    compile and render functions it makes (what those calls write is outside
    this model). *)
Definition main_file (file : string) (w : world) : world * list call :=
  if negb (path_exists file w) then
    let slug := splitext_root (basename file) in
    let w1 :=
      if decide (slug ≠ "index") then
        let out_dir := path_join OUTPUT_DIR slug in
        if isdir out_dir w then rmtree out_dir w else w
      else w in
    (remove_slug_cache w1, [])
  else
    (w, [Call_has_file_changed file; Call_parse_file file;
         Call_render_page (page_url file)]).

(** Where [render_page] writes the page of the document at [filepath]: the
    directory of its [index.html]. *)
Definition output_dir_of (filepath : string) : string :=
  let url := page_url filepath in
  if decide (url = "/") then OUTPUT_DIR
  else path_join OUTPUT_DIR (lstrip "/"%char url).

(** ** [main], full build *)

(** One iteration of [for slug in removed]; the list records the
    directories reported as removed. *)
Definition prune_slug (acc : world * list string) (slug : string) : world * list string :=
  if startswith slug "posts/" then acc
  else if decide (slug = "index") then acc
  else
    let out_dir := path_join OUTPUT_DIR slug in
    if isdir out_dir acc.1 then (rmtree out_dir acc.1, acc.2 ++ [out_dir]) else acc.

(** [removed = previous_slugs - current_slugs]. *)
Definition removed_slugs (previous_slugs current_slugs : gset string) : gset string :=
  previous_slugs ∖ current_slugs.

Definition reconcile (previous_slugs current_slugs : gset string) (w : world)
    : world * list string :=
  foldl prune_slug (w, []) (elements (removed_slugs previous_slugs current_slugs)).

(** The lists a full build fills while it walks the content directories.
    [tags] keeps the insertion order of the dictionary. *)
Record site := Site {
  sitemap_list : list pyval;
  all_posts : list page_data;
  pages : list (page_data * string);
  tags : list (string * list page_data);
  current_slugs : gset string
}.

Definition empty_site : site := Site [] [] [] [] ∅.

Definition endswith (s suffix : string) : bool :=
  startswith (String.rev s) (String.rev suffix).

(** [str(page_data.get("draft")).lower() in ("true", "1", "yes")]. *)
Definition is_draft (pd : page_data) : bool :=
  bool_decide (lower (py_str (get pd "draft")) ∈ ["true"; "1"; "yes"]).

(** [tags.setdefault(tag, []).append(page_data)]. *)
Fixpoint tags_add (tag : string) (pd : page_data) (tags : list (string * list page_data))
    : list (string * list page_data) :=
  match tags with
  | [] => [(tag, [pd])]
  | (t, posts) :: rest =>
      if decide (t = tag) then (t, posts ++ [pd]) :: rest
      else (t, posts) :: tags_add tag pd rest
  end.

(** The characters of a string, as iterating over it yields them. *)
Fixpoint chars (s : string) : list string :=
  match s with
  | "" => []
  | String c s' => String c "" :: chars s'
  end.

(** The values [for tag in page_data.get("tags") or []] runs over. *)
Definition iter_tags (v : pyval) : result (list string) :=
  if truthy v then
    match v with
    | VList items => Ok items
    | VStr s => Ok (chars s)
    | _ => Raise "TypeError"
    end
  else Ok [].

Global Instance datetime_eq_dec : EqDecision datetime.
Proof. solve_decision. Defined.
Global Instance pyval_eq_dec : EqDecision pyval.
Proof. solve_decision. Defined.

Section FullBuild.

Variable parse_file : string → option (page_data * string).
(** [datetime.strptime(s, "%Y-%m-%d")]; [None] stands for [ValueError]. *)
Variable strptime : string → option datetime.

(** Body of [for filename in os.listdir(CONTENT_DIR)].  The key [url] is
    the one [parse_file] has set, so [page_data["url"]] is read with [get]. *)
Definition content_step (st : site) (filename : string) : site :=
  if endswith filename ".md" then
    match parse_file (path_join CONTENT_DIR filename) with
    | None => st
    | Some (pd, html_content) =>
        if decide (pd = ∅) then st
        else if is_draft pd then st
        else
          {| sitemap_list := sitemap_list st ++ [get pd "url"];
             all_posts := all_posts st;
             pages := pages st ++ [(pd, html_content)];
             tags := tags st;
             current_slugs := {[ splitext_root filename ]} ∪ current_slugs st |}
    end
  else st.

(** Body of [for filename in os.listdir(POSTS_DIR)]. *)
Definition posts_step (st : site) (filename : string) : result site :=
  if endswith filename ".md" then
    match parse_file (path_join POSTS_DIR filename) with
    | None => Ok st
    | Some (pd, html_content) =>
        if decide (pd = ∅) then Ok st
        else if is_draft pd then Ok st
        else
          let slugs := {[ "posts/" +:+ splitext_root filename ]} ∪ current_slugs st in
          let pages' := pages st ++ [(pd, html_content)] in
          let sitemap' := sitemap_list st ++ [get pd "url"] in
          if decide (get pd "layout" = VStr "post") then
            tag_names ← iter_tags (get pd "tags");
            Ok {| sitemap_list := sitemap';
                  all_posts := all_posts st ++ [pd];
                  pages := pages';
                  tags := foldl (λ tg tag, tags_add tag pd tg) (tags st) tag_names;
                  current_slugs := slugs |}
          else
            Ok {| sitemap_list := sitemap'; all_posts := all_posts st;
                  pages := pages'; tags := tags st; current_slugs := slugs |}
    end
  else Ok st.

(** The two directory walks; [listdir_posts] is [None] when [POSTS_DIR]
    does not exist. *)
Definition collect (listdir_content : list string)
    (listdir_posts : option (list string)) : result site :=
  let st := foldl content_step empty_site listdir_content in
  match listdir_posts with
  | None => Ok st
  | Some names => for_each posts_step st names
  end.

(** [datetime.strptime(value, "%Y-%m-%d")] on a dictionary value. *)
Definition strptime_val (v : pyval) : result datetime :=
  match v with
  | VStr s => match strptime s with Some d => Ok d | None => Raise "ValueError" end
  | _ => Raise "TypeError"
  end.

(** The sort key of [all_posts.sort] in [main]. *)
Definition all_posts_key (x : page_data) : result datetime :=
  if truthy (get x "date") then strptime_val (get x "date") else Ok datetime_min.

(** The sort key of [posts_with_tag.sort] in [tag_pages]. *)
Definition tag_posts_key (x : page_data) : result datetime :=
  match x !! "date" with
  | None => Raise "KeyError"
  | Some v => strptime_val v
  end.

(** [l.sort(key=key, reverse=True)]: every key is computed first; the
    list is reversed, sorted stably in ascending order and reversed again. *)
Definition sort_reverse {A} (key : A → result datetime) (l : list A) : result (list A) :=
  keys ← mapM key l;
  Ok (rev (sorted_by (λ kx : datetime * A, dt_ord kx.1) (rev (zip keys l)))).*2.

(** What a full build produces. *)
Record built := Built {
  out_world : world;
  removed_dirs : list string;
  rendered : list (page_data * string);
  posts_sorted : list page_data;
  tag_listings : list (string * list page_data);
  sitemap : list pyval
}.

(** The branch [else:] of [main], from the tree [clean_output] leaves. *)
Definition main_full (listdir_content : list string)
    (listdir_posts : option (list string)) (has_tag_template : bool)
    (w : world) : result built :=
  let previous_slugs := load_previous_slugs w in
  st ← collect listdir_content listdir_posts;
  let '(w1, log) := reconcile previous_slugs (current_slugs st) w in
  let w2 := save_current_slugs (current_slugs st) w1 in
  posts ← sort_reverse all_posts_key (all_posts st);
  listings ←
    (if has_tag_template
     then mapM (λ tp : string * list page_data,
                  sorted ← sort_reverse tag_posts_key tp.2; Ok (tp.1, sorted))
               (tags st)
     else Ok []);
  Ok {| out_world := w2; removed_dirs := log; rendered := pages st;
        posts_sorted := posts; tag_listings := listings;
        sitemap := sitemap_list st |}.

End FullBuild.

(** ** Specification vocabulary and worked inputs *)

(** The value of the attribute [name] of a start tag: that of its last
    occurrence, names compared in lower case; [None] when the tag has no
    such attribute or it carries no value. *)
Definition attr_value (attrs : list attr) (name : string) : option string :=
  mjoin (snd <$> List.find (λ a : attr, bool_decide (lower a.1 = name)) (rev attrs)).

(** The image of the specification's round-trip example. *)
Definition cat_html : string :=
  "<img src=" +:+ dquote +:+ "/assets/images/cat.jpg" +:+ dquote +:+
  " alt=" +:+ dquote +:+ "c" +:+ dquote +:+ ">".

Definition cat_attrs : list attr :=
  [("src", Some "/assets/images/cat.jpg"); ("alt", Some "c")].

Definition cat_entry : manifest_entry :=
  {[ "jpg" := [ Variant (Some "img/cat-400.jpg") (Some 400%Z);
                Variant (Some "img/cat-800.jpg") (Some 800%Z) ] ]}.

Definition cat_manifest : Manifest := {[ "cat.jpg" := cat_entry ]}.

Definition cat_srcset : string := "/img/cat-400.jpg 400w, /img/cat-800.jpg 800w".

Definition cat_picture : string :=
  "<picture><source type=" +:+ dquote +:+ "image/jpeg" +:+ dquote +:+
  " srcset=" +:+ dquote +:+ cat_srcset +:+ dquote +:+
  " sizes=" +:+ dquote +:+ "100vw" +:+ dquote +:+
  "><img src=" +:+ dquote +:+ "/img/cat-800.jpg" +:+ dquote +:+
  " alt=" +:+ dquote +:+ "c" +:+ dquote +:+
  " srcset=" +:+ dquote +:+ cat_srcset +:+ dquote +:+
  " sizes=" +:+ dquote +:+ "100vw" +:+ dquote +:+ "></picture>".

(** A manifest entry whose only variant has a negative width. *)
Definition negative_entry : manifest_entry :=
  {[ "jpg" := [ Variant (Some "a.jpg") (Some (-1)%Z) ] ]}.

(** A tag with an empty [data-img-sizes] next to a [sizes] attribute. *)
Definition empty_sizes_attrs : list attr :=
  [("src", Some "/assets/images/cat.jpg"); ("data-img-sizes", Some "");
   ("sizes", Some "50vw")].

(** The text the parser emits for a sequence of callbacks. *)
Definition emitted (m : Manifest) (evs : list event) : string :=
  get_html (foldl handle {| manifest := m; output := [] |} evs).

Definition nosrc_html : string :=
  "<img alt=" +:+ dquote +:+ "logo" +:+ dquote +:+ "><b>x</b>".

(** Newest first: of two posts whose date keys exist, the earlier in the
    list is not older than the later; and its strict form. *)
Definition newest_first {A} (key : A → result datetime) (a b : A) : Prop :=
  ∀ ka kb, key a = Ok ka → key b = Ok kb → (dt_ord kb ≤ dt_ord ka)%Z.

(** Posts: two of the same day, an older one, one without a date and one
    whose date no parser accepts. *)
Definition post_a : page_data :=
  {[ "title" := VStr "a"; "layout" := VStr "post"; "date" := VStr "2024-03-05" ]}.
Definition post_b : page_data :=
  {[ "title" := VStr "b"; "layout" := VStr "post"; "date" := VStr "2024-03-05" ]}.
Definition post_old : page_data :=
  {[ "title" := VStr "old"; "layout" := VStr "post"; "date" := VStr "2019-12-31" ]}.

(** A page dictionary carries the draft mark: the text of its [draft]
    value is, in lower case, one of [true], [1], [yes]. *)
Definition draft_marked (pd : page_data) : Prop :=
  lower (py_str (get pd "draft")) ∈ ["true"; "1"; "yes"].

(** A content tree of two pages, one of them a draft, and one post. *)
Definition about_page : page_data := {[ "title" := VStr "About"; "layout" := VStr "page" ]}.
Definition wip_page : page_data :=
  {[ "title" := VStr "Wip"; "layout" := VStr "page"; "draft" := VBool true ]}.
Definition tagged_post : page_data :=
  {[ "title" := VStr "Hello"; "layout" := VStr "post"; "date" := VStr "2024-03-05";
     "tags" := VList ["rocq"] ]}.

Definition sample_documents (filepath : string) : option (page_data * string) :=
  if decide (filepath = "content/about.md") then Some (about_page, "<p>about</p>")
  else if decide (filepath = "content/wip.md") then Some (wip_page, "<p>wip</p>")
  else if decide (filepath = "content/posts/hello.md") then Some (tagged_post, "<p>hello</p>")
  else None.

Definition sample_parse_file : string → option (page_data * string) :=
  parse_file RefDatetime.fromisoformat sample_documents.

(** Nothing is left of the directory [d]: neither it nor anything below. *)
Definition gone (d : string) (w : world) : Prop :=
  ∀ p, under d p = true → (p ∉ dirs w) ∧ (p ∉ files w).


(** A tree holding the output of the page [content/hello.md] and of the
    post [content/posts/hello.md]; the source of the post has been deleted. *)
Definition deleted_post_world : world :=
  {| dirs := {[ "./hello"; "./posts"; "./posts/hello" ]};
     files := {[ "content/hello.md"; "./hello/index.html"; "./posts/hello/index.html" ]};
     slug_cache := CacheSlugs ["hello"; "index"; "posts/hello"] |}.

(** Ascending order of a key. *)
Definition ascending {A} (key : A → Z) (a b : A) : Prop := (key a ≤ key b)%Z.

(** No list of the build holds a draft, and the sitemap lists the URLs of
    the pages. *)
Definition drafts_free (st : site) : Prop :=
  Forall (λ p : page_data * string, ¬ draft_marked p.1) (pages st)
  ∧ Forall (λ pd, ¬ draft_marked pd) (all_posts st)
  ∧ Forall (λ tp : string * list page_data, Forall (λ pd, ¬ draft_marked pd) tp.2) (tags st)
  ∧ sitemap_list st = (λ p : page_data * string, get p.1 "url") <$> pages st.

(** ** [clean_output] *)

(** The directory [clean_output] walks: a regular file, or a directory with
    its named entries. *)
Inductive tree :=
  | File
  | Dir (entries : list (string * tree)).

Definition preserved_roots : list string :=
  [".git"; ".github"; ".cache"; "assets"; "content"; "node_modules"; "src"; "templates"].
Definition generated_roots : list string := ["blog"; "tags"; "posts"].

(** The flag [delete_file] for a file [filename] in a directory whose top
    level component is [top_level] (empty for the walked directory itself). *)
Definition delete_file (top_level filename : string) : bool :=
  bool_decide (top_level ∈ generated_roots)
  || bool_decide (filename = "index.html") || endswith filename ".xml".

(** What is left of one entry of a directory that [os.walk] visits bottom
    up, [clean] being the walk of a sub-directory: a flagged file is removed,
    and so is a sub-directory that the walk leaves empty ([os.rmdir]). *)
Definition clean_entry (clean : tree → tree) (top_level : string)
    (e : string * tree) : list (string * tree) :=
  match e.2 with
  | File => if delete_file top_level e.1 then [] else [e]
  | Dir _ => match clean e.2 with
             | Dir [] => []
             | kept => [(e.1, kept)]
             end
  end.

(** The walk below a top level directory that is not preserved. *)
Fixpoint clean_dir (top_level : string) (t : tree) : tree :=
  match t with
  | File => File
  | Dir entries => Dir (flat_map (clean_entry (clean_dir top_level) top_level) entries)
  end.

(** [clean_output(directory)] on the tree of [directory]: the walk skips
    every directory under a preserved root, and never removes [directory]
    itself. *)
Definition clean_output (root : tree) : tree :=
  match root with
  | File => File
  | Dir entries =>
      Dir (flat_map (λ e : string * tree,
             match e.2 with
             | File => clean_entry (clean_dir "") "" e
             | Dir _ =>
                 if bool_decide (e.1 ∈ preserved_roots) then [e]
                 else clean_entry (clean_dir e.1) e.1 e
             end) entries)
  end.

(** The files of a tree, each by the names that lead to it. *)
Fixpoint file_paths (t : tree) : list (list string) :=
  match t with
  | File => [[]]
  | Dir entries => flat_map (λ e : string * tree, map (cons e.1) (file_paths e.2)) entries
  end.

(** The directories of a tree other than the tree itself. *)
Fixpoint dir_paths (t : tree) : list (list string) :=
  match t with
  | File => []
  | Dir entries =>
      flat_map (λ e : string * tree,
                  match e.2 with
                  | File => []
                  | Dir _ => [e.1] :: map (cons e.1) (dir_paths e.2)
                  end) entries
  end.

(** The entries of a directory. *)
Definition entries_of (t : tree) : list (string * tree) :=
  match t with File => [] | Dir entries => entries end.

(** The flag [delete_file] of the file at the end of [path] is off. *)
Definition keep_under (top_level : string) (path : list string) : bool :=
  negb (delete_file top_level (default "" (last path))).

(** A file that [clean_output] keeps: it lies under a preserved root, or
    its flag [delete_file] is off. *)
Definition kept_file (path : list string) : bool :=
  match path with
  | [] => true
  | [name] => negb (delete_file "" name)
  | top_level :: rest =>
      bool_decide (top_level ∈ preserved_roots)
      || negb (delete_file top_level (default "" (last rest)))
  end.

(** ** [has_file_changed] *)

(** [s.strip()] on ASCII text. *)
Fixpoint py_lstrip (s : string) : string :=
  match s with
  | "" => ""
  | String c s' => if Ascii.is_space c then py_lstrip s' else s
  end.
Definition py_strip (s : string) : string :=
  String.rev (py_lstrip (String.rev (py_lstrip s))).

(** [rel.replace(os.sep, "__")]. *)
Fixpoint replace_sep (rel : string) : string :=
  match rel with
  | "" => ""
  | String c rel' =>
      if Ascii.eqb c "/"%char then "__" +:+ replace_sep rel'
      else String c (replace_sep rel')
  end.

Definition cache_file_of (cache_dir rel : string) : string :=
  path_join cache_dir (replace_sep rel +:+ ".hash").

Section FileHash.

(** [hashlib.md5(data).hexdigest()]. *)
Variable md5 : string → string.

(** [has_file_changed(filepath)]: [rel] is the path relative to the working
    directory, [data] what the file holds, [cache] the files of the cache
    directory with their text.  The answer comes with the cache as the call
    leaves it. *)
Definition has_file_changed (cache_dir rel data : string) (cache : gmap string string)
    : bool * gmap string string :=
  let file_hash := md5 data in
  let cache_file := cache_file_of cache_dir rel in
  match cache !! cache_file with
  | Some text =>
      if decide (py_strip text = file_hash) then (false, cache)
      else (true, <[cache_file := file_hash]> cache)
  | None => (true, <[cache_file := file_hash]> cache)
  end.

End FileHash.

(** ** [load_templates] *)

Definition allowed_extensions : list string := [".html"; ".jinja"; ".jinja2"; ".j2"].

(** [filename.endswith(allowed_extensions)]. *)
Definition allowed_template (rel_path : string) : bool :=
  existsb (endswith (basename rel_path)) allowed_extensions.

(** [(rel_path, rel_without_ext, base_name)]. *)
Definition template_keys (rel_path : string) : list string :=
  [rel_path; splitext_root rel_path; splitext_root (basename rel_path)].

(** [if key not in templates: templates[key] = template]; a template is
    named by the path it is loaded from. *)
Definition register (rel_path : string) (templates : gmap string string)
    (key : string) : gmap string string :=
  match templates !! key with
  | Some _ => templates
  | None => <[key := rel_path]> templates
  end.

(** [load_templates], over the template files in the order [os.walk] yields
    them, each by its path relative to the template directory. *)
Definition load_templates (walk : list string) : gmap string string :=
  foldl (λ templates rel_path,
           if allowed_template rel_path
           then foldl (register rel_path) templates (template_keys rel_path)
           else templates) ∅ walk.

(** Stand-ins for closed examples: a digest and a small output tree. *)
Definition sample_md5 (data : string) : string := pretty (String.length data).

Definition sample_tree : tree :=
  Dir [ ("index.html", File);
        ("about", Dir [("index.html", File); ("photo.png", File)]);
        ("old", Dir [("index.html", File)]);
        ("posts", Dir [("hello", Dir [("index.html", File)]); ("notes.txt", File)]);
        ("content", Dir [("index.md", File); ("feed.xml", File)]);
        ("sitemap.xml", File);
        ("README.md", File) ].

(** The post [x] has the date key of ordinal [k]. *)
Definition has_ord {A} (key : A → result datetime) (k : Z) (x : A) : bool :=
  match key x with
  | Ok d => Z.eqb (dt_ord d) k
  | Raise _ => false
  end.

(** The callback announces an [img] start tag. *)
Definition is_img_start (e : event) : bool :=
  match e with
  | StartTag tag _ _ | StartEndTag tag _ _ => bool_decide (lower tag = "img")
  | _ => false
  end.

(** [tags.get(tag, [])] on the tag index. *)
Fixpoint tags_get (tags : list (string * list page_data)) (tag : string) : list page_data :=
  match tags with
  | [] => []
  | (t, posts) :: rest => if decide (t = tag) then posts else tags_get rest tag
  end.

(** The entries a post contributes to the list of [tag]: one for each time
    the tag occurs among its tags. *)
Definition tag_occurrences (tag : string) (pd : page_data) : list page_data :=
  match iter_tags (get pd "tags") with
  | Ok names => map (λ _, pd) (List.filter (λ n, bool_decide (n = tag)) names)
  | Raise _ => []
  end.

(** A name as [os.listdir] yields it: not empty, without a slash, and
    neither of the two dot entries. *)
Definition plain_name (name : string) : Prop :=
  contains "/" name = false ∧ name ≠ "" ∧ name ≠ "." ∧ name ≠ "..".

(** How often the character [c] occurs in [s]. *)
Fixpoint count_char (c : ascii) (s : string) : nat :=
  match s with
  | "" => 0
  | String x s' => (if Ascii.eqb x c then 1 else 0) + count_char c s'
  end.

(** The attribute is written with a value. *)
Definition has_value (a : attr) : bool :=
  match a.2 with Some _ => true | None => false end.

(** * Properties *)

(** ** The stable sort *)

Section Sorting.
Context {A : Type} (key : A → Z).

Lemma insert_by_perm x l : insert_by key x l ≡ₚ x :: l.
Proof.
  induction l as [|y l IH]; simpl; [done|].
  destruct (Z.leb (key x) (key y)); [done|].
  rewrite IH. apply Permutation_swap.
Qed.

Lemma sorted_by_perm l : sorted_by key l ≡ₚ l.
Proof.
  induction l as [|x l IH]; simpl; [done|].
  by rewrite insert_by_perm, IH.
Qed.

Lemma insert_by_sorted x l :
  StronglySorted (ascending key) l → StronglySorted (ascending key) (insert_by key x l).
Proof.
  induction 1 as [|y l Hl IH Hy]; simpl.
  - repeat constructor.
  - destruct (Z.leb (key x) (key y)) eqn:E.
    + apply Z.leb_le in E. constructor; [by constructor|].
      constructor; [done|].
      eapply Forall_impl; [exact Hy|]. unfold ascending. intros; lia.
    + apply Z.leb_gt in E. constructor; [done|].
      rewrite insert_by_perm. constructor; [|done].
      unfold ascending. lia.
Qed.

Lemma sorted_by_sorted l : StronglySorted (ascending key) (sorted_by key l).
Proof.
  induction l as [|x l IH]; simpl; [constructor|].
  by apply insert_by_sorted.
Qed.

(** The last element of an ascending list is a largest one. *)
Lemma sorted_last_max l m x :
  StronglySorted (ascending key) l → last l = Some m → x ∈ l → (key x ≤ key m)%Z.
Proof.
  intros Hs Hlast Hx. apply last_Some in Hlast as [l' ->].
  apply elem_of_app in Hx as [Hx|Hx].
  - apply StronglySorted_app in Hs as (H & _ & _). apply H; [done|]. set_solver.
  - apply list_elem_of_singleton in Hx as ->. lia.
Qed.

Lemma StronglySorted_rev (R : relation A) l :
  StronglySorted R l → StronglySorted (flip R) (rev l).
Proof.
  induction 1 as [|x l Hl IH Hx]; simpl; [constructor|].
  apply StronglySorted_app; split_and!; [|done|repeat constructor].
  intros a b Ha Hb. apply list_elem_of_singleton in Hb as ->.
  rewrite Forall_forall in Hx. apply Hx.
  by apply list_elem_of_In, in_rev, list_elem_of_In.
Qed.

End Sorting.

(** ** Attributes *)

Lemma attrs_dict_snoc (attrs : list attr) (a : attr) :
  attrs_dict (attrs ++ [a]) = <[lower a.1 := a.2]> (attrs_dict attrs).
Proof. unfold attrs_dict. by rewrite foldl_app. Qed.

(** The dictionary built from the attributes holds, for every name, the
    value of its last occurrence. *)
Lemma attrs_dict_lookup (attrs : list attr) (name : string) :
  dict_get (attrs_dict attrs) name = attr_value attrs name.
Proof.
  unfold dict_get, attr_value.
  induction attrs as [|a attrs IH] using rev_ind; [done|].
  rewrite attrs_dict_snoc, rev_app_distr. simpl.
  destruct (decide (lower a.1 = name)) as [->|Hne].
  - rewrite lookup_insert_eq, bool_decide_eq_true_2 by done. done.
  - rewrite lookup_insert_ne, bool_decide_eq_false_2 by done. done.
Qed.

Lemma attr_value_Some (attrs : list attr) (name v : string) :
  attr_value attrs name = Some v → ∃ a, a ∈ attrs ∧ lower a.1 = name ∧ a.2 = Some v.
Proof.
  unfold attr_value. intros H.
  destruct (List.find _ _) as [a|] eqn:E; [|done].
  apply find_some in E as [Hin Hb]. apply bool_decide_eq_true_1 in Hb.
  exists a. split_and!; [|done|done].
  by apply list_elem_of_In, in_rev.
Qed.

(** ** Source candidates *)

Lemma usable_spec (v : variant) :
  usable v = true ↔
  ∃ p z, v_path v = Some p ∧ p ≠ "" ∧ v_width v = Some z ∧ z ≠ 0%Z.
Proof.
  unfold usable. destruct v as [[p|] [z|]]; simpl.
  - rewrite andb_true_iff, !negb_true_iff, Z.eqb_neq. split.
    + intros [Hp Hz]. exists p, z. split_and!; try done. by intros ->.
    + intros (p' & z' & [= <-] & Hp & [= <-] & Hz). split; [|done]. by destruct p.
  - rewrite andb_false_r. split; [done|]. by intros (? & ? & ? & ? & ? & ?).
  - split; [done|]. by intros (? & ? & ? & ?).
  - split; [done|]. by intros (? & ? & ? & ?).
Qed.

Lemma sorted_usable_perm (variants : list variant) :
  sorted_usable variants ≡ₚ filter (λ v, Is_true (usable v)) variants.
Proof. apply sorted_by_perm. Qed.

Lemma sorted_usable_elem (variants : list variant) (v : variant) :
  v ∈ sorted_usable variants ↔ usable v = true ∧ v ∈ variants.
Proof.
  rewrite sorted_usable_perm, list_elem_of_filter, Is_true_true. done.
Qed.

Lemma sorted_usable_nonempty (variants : list variant) :
  sorted_usable variants ≠ [] ↔ ∃ v, v ∈ variants ∧ usable v = true.
Proof.
  split.
  - destruct (sorted_usable variants) as [|v l] eqn:E; [done|]. intros _.
    assert (v ∈ sorted_usable variants) as Hv by (rewrite E; left).
    apply sorted_usable_elem in Hv as [? ?]. eauto.
  - intros (v & Hin & Hu) E.
    assert (v ∈ sorted_usable variants) as Hv by by apply sorted_usable_elem.
    rewrite E in Hv. by apply not_elem_of_nil in Hv.
Qed.

(** The contribution of one format to the list of sources. *)
Lemma sources_step_app (entry : manifest_entry) (sizes : string)
    (sources : list string) (fmt : string) :
  sources_step entry sizes sources fmt =
  sources ++ match sorted_usable (default [] (entry !! fmt)) with
             | [] => []
             | vs => [source_tag (mime_of fmt) (srcset_of vs) sizes]
             end.
Proof.
  unfold sources_step. destruct (entry !! fmt) as [[|v vs]|]; simpl.
  - by rewrite app_nil_r.
  - destruct (sorted_usable (v :: vs)); [by rewrite app_nil_r|done].
  - by rewrite app_nil_r.
Qed.

Lemma foldl_sources_step (entry : manifest_entry) (sizes : string)
    (sources : list string) (fmts : list string) :
  foldl (sources_step entry sizes) sources fmts =
  sources ++ concat (map (λ fmt,
      match sorted_usable (default [] (entry !! fmt)) with
      | [] => []
      | vs => [source_tag (mime_of fmt) (srcset_of vs) sizes]
      end) fmts).
Proof.
  revert sources. induction fmts as [|fmt fmts IH]; intros sources; simpl.
  - by rewrite app_nil_r.
  - rewrite IH, sources_step_app. by rewrite <- app_assoc.
Qed.

Lemma sizes_value_of_spec (attrs : list attr) :
  match attr_value attrs "data-img-sizes", attr_value attrs "sizes" with
  | Some s, other =>
      if is_empty s
      then match other with
           | Some t => sizes_value_of attrs = if is_empty t then "100vw" else t
           | None => sizes_value_of attrs = "100vw"
           end
      else sizes_value_of attrs = s
  | None, Some t => sizes_value_of attrs = if is_empty t then "100vw" else t
  | None, None => sizes_value_of attrs = "100vw"
  end.
Proof.
  unfold sizes_value_of. rewrite !attrs_dict_lookup.
  destruct (attr_value attrs "data-img-sizes") as [s|];
    destruct (attr_value attrs "sizes") as [t|]; simpl;
    repeat match goal with |- context [is_empty ?x] => destruct x; simpl end; done.
Qed.

(** C3 (amended).  For every tag and manifest entry, the list of [<source>]
    candidates is built format by format in the order avif, webp, jpg, jpeg,
    png; a format contributes one [<source>] exactly when one of its variants
    has a non-empty path and a non-zero width (the test is truthiness, so a
    negative width counts); the usable variants are sorted by ascending width
    into a comma-separated srcset of [/<path> <width>w] items; the type is
    [image/jpeg] for jpg and jpeg and [image/<format>] otherwise; the sizes
    value is that of [data-img-sizes] when it is present and non-empty, else
    that of [sizes] when it is present and non-empty, else [100vw]. *)
Theorem source_candidates (attrs : list attr) (entry : manifest_entry) :
  build_sources entry (sizes_value_of attrs) =
    concat (map (λ fmt,
        match sorted_usable (default [] (entry !! fmt)) with
        | [] => []
        | vs => [source_tag (mime_of fmt) (srcset_of vs) (sizes_value_of attrs)]
        end) ["avif"; "webp"; "jpg"; "jpeg"; "png"])
  ∧ (∀ fmt, sorted_usable (default [] (entry !! fmt)) ≠ [] ↔
       ∃ variants v p z, entry !! fmt = Some variants ∧ v ∈ variants
         ∧ v_path v = Some p ∧ p ≠ "" ∧ v_width v = Some z ∧ z ≠ 0%Z)
  ∧ (∀ variants,
       sorted_usable variants ≡ₚ filter (λ v, Is_true (usable v)) variants
       ∧ StronglySorted (λ a b, (width_of a ≤ width_of b)%Z) (sorted_usable variants))
  ∧ (∀ vs, srcset_of vs =
       join ", " (map (λ v, "/" +:+ path_of v +:+ " " +:+ pretty (width_of v) +:+ "w") vs))
  ∧ (mime_of "jpg" = "image/jpeg" ∧ mime_of "jpeg" = "image/jpeg"
     ∧ ∀ fmt, fmt ≠ "jpg" → fmt ≠ "jpeg" → mime_of fmt = "image/" +:+ fmt)
  ∧ (∀ s, attr_value attrs "data-img-sizes" = Some s → s ≠ "" →
       sizes_value_of attrs = s)
  ∧ (∀ t, (∀ s, attr_value attrs "data-img-sizes" = Some s → s = "") →
       attr_value attrs "sizes" = Some t → t ≠ "" → sizes_value_of attrs = t)
  ∧ ((∀ s, attr_value attrs "data-img-sizes" = Some s → s = "") →
     (∀ t, attr_value attrs "sizes" = Some t → t = "") →
     sizes_value_of attrs = "100vw").
Proof.
  split_and!.
  - unfold build_sources. by rewrite foldl_sources_step.
  - intros fmt. rewrite sorted_usable_nonempty. split.
    + intros (v & Hin & Hu). destruct (entry !! fmt) as [variants|] eqn:E; simpl in Hin.
      * apply usable_spec in Hu as (p & z & ? & ? & ? & ?).
        exists variants, v, p, z. done.
      * by apply not_elem_of_nil in Hin.
    + intros (variants & v & p & z & -> & Hin & Hp & Hp' & Hz & Hz').
      exists v. split; [done|]. apply usable_spec. eauto 10.
  - intros variants. split; [apply sorted_usable_perm|apply sorted_by_sorted].
  - done.
  - done.
  - done.
  - intros fmt H1 H2. unfold mime_of. by rewrite !decide_False.
  - intros s Hs Hne. pose proof (sizes_value_of_spec attrs) as H.
    rewrite Hs in H. by destruct s.
  - intros t Hd Ht Hne. pose proof (sizes_value_of_spec attrs) as H.
    rewrite Ht in H. destruct (attr_value attrs "data-img-sizes") as [s|].
    + rewrite (Hd s eq_refl) in H. simpl in H. by destruct t.
    + by destruct t.
  - intros Hd Ht. pose proof (sizes_value_of_spec attrs) as H.
    destruct (attr_value attrs "data-img-sizes") as [s|];
      destruct (attr_value attrs "sizes") as [t|];
      rewrite ?(Hd _ eq_refl), ?(Ht _ eq_refl) in H; done.
Qed.

Lemma source_candidates_witness :
  build_sources cat_entry (sizes_value_of cat_attrs)
  = [source_tag "image/jpeg" cat_srcset "100vw"].
Proof.
  destruct (source_candidates cat_attrs cat_entry) as (H & _).
  rewrite H. vm_compute. reflexivity.
Defined.

(** C3, as stated, fails: the only variant of [negative_entry] has no
    positive width, yet the format contributes a [<source>]; and a tag whose
    [data-img-sizes] attribute is present but empty takes its [sizes] value
    instead. *)
Lemma source_candidates_counterexample :
  (¬ ∃ v, v ∈ default [] (negative_entry !! "jpg")
        ∧ truthy_str (v_path v) = true ∧ (0 < width_of v)%Z)
  ∧ build_sources negative_entry "100vw"
    = [source_tag "image/jpeg" "/a.jpg -1w" "100vw"]
  ∧ ("data-img-sizes", Some "") ∈ empty_sizes_attrs
  ∧ sizes_value_of empty_sizes_attrs = "50vw".
Proof.
  split_and!.
  - intros (v & Hin & _ & Hw). vm_compute in Hin.
    apply list_elem_of_singleton in Hin as ->. vm_compute in Hw. done.
  - by vm_compute.
  - unfold empty_sizes_attrs. set_solver.
  - by vm_compute.
Qed.

(** ** The fallback image *)

Lemma find_split {A} (P : A → bool) (l : list A) (x : A) :
  List.find P l = Some x →
  ∃ pre post, l = pre ++ x :: post ∧ P x = true ∧ ∀ y, y ∈ pre → P y = false.
Proof.
  induction l as [|a l IH]; simpl; [done|].
  destruct (P a) eqn:E.
  - intros [= ->]. exists [], l. split_and!; [done|done|]. intros y Hy.
    by apply not_elem_of_nil in Hy.
  - intros (pre & post & -> & Hx & Hpre)%IH.
    exists (a :: pre), post. split_and!; [done|done|].
    intros y [->|Hy]%elem_of_cons; auto.
Qed.

Lemma has_variants_false (entry : manifest_entry) (fmt : string) :
  has_variants entry fmt = false → sorted_usable (default [] (entry !! fmt)) = [].
Proof.
  unfold has_variants. by destruct (entry !! fmt) as [[|v vs]|].
Qed.

Lemma srcset_of_nonempty (vs : list variant) :
  vs ≠ [] → is_empty (srcset_of vs) = false.
Proof.
  destruct vs as [|v [|v' vs]]; [done|done|done].
Qed.

Lemma filter_dropped_attr (attrs : list attr) :
  filter (λ a : attr, ¬ Is_true (dropped_attr a.1)) attrs =
  filter (λ a : attr, lower a.1 ∉ ["src"; "srcset"; "sizes"; "data-img-sizes"]) attrs.
Proof.
  apply list_filter_iff. intros a. unfold dropped_attr.
  by rewrite bool_decide_spec.
Qed.

(** C4.  When an image is rewritten, its fallback [<img>] comes from the
    first format in the order jpg, jpeg, png, webp, avif that has usable
    variants: [src] is the root-absolute path of that format's variant of
    largest width, [srcset] lists all its usable variants by ascending width,
    and the attributes of the original tag are kept except [src], [srcset],
    [sizes] and [data-img-sizes], the computed [srcset] and [sizes] being
    appended. *)
Theorem fallback_img (attrs : list attr) (entry : manifest_entry) (html : string) :
  _build_picture_element attrs entry = Some html →
  ∃ skipped fmt later variants largest,
    ["jpg"; "jpeg"; "png"; "webp"; "avif"] = skipped ++ fmt :: later
    ∧ (∀ f, f ∈ skipped → sorted_usable (default [] (entry !! f)) = [])
    ∧ variants = sorted_usable (default [] (entry !! fmt))
    ∧ last variants = Some largest
    ∧ (∀ v, v ∈ variants → (width_of v ≤ width_of largest)%Z)
    ∧ html =
        "<picture>"
        +:+ String.concat "" (build_sources entry (sizes_value_of attrs))
        +:+ ("<img"
             +:+ _render_attributes
                   ([("src", Some ("/" +:+ path_of largest))]
                    ++ filter (λ a : attr,
                         lower a.1 ∉ ["src"; "srcset"; "sizes"; "data-img-sizes"]) attrs
                    ++ [("srcset", Some (srcset_of variants))]
                    ++ [("sizes", Some (sizes_value_of attrs))])
             +:+ ">")
        +:+ "</picture>".
Proof.
  unfold _build_picture_element. intros H.
  destruct (decide (entry = ∅)); [done|].
  destruct (decide (build_sources _ _ = [])); [done|].
  destruct (List.find _ _) as [fmt|] eqn:Hfind; [|done].
  apply find_split in Hfind as (skipped & later & Hsplit & _ & Hskip).
  destruct (last _) as [largest|] eqn:Hlast; [|done].
  injection H as <-.
  exists skipped, fmt, later, (sorted_usable (default [] (entry !! fmt))), largest.
  split_and!; [done| |done|done| |].
  - intros f Hf. by apply has_variants_false, Hskip.
  - intros v Hv. by eapply (sorted_last_max width_of); [apply sorted_by_sorted|..].
  - rewrite srcset_of_nonempty, filter_dropped_attr; [done|].
    intros E. by rewrite E in Hlast.
Qed.

Lemma fallback_img_witness :
  ∃ skipped fmt later variants largest,
    ["jpg"; "jpeg"; "png"; "webp"; "avif"] = skipped ++ fmt :: later
    ∧ (∀ f, f ∈ skipped → sorted_usable (default [] (cat_entry !! f)) = [])
    ∧ variants = sorted_usable (default [] (cat_entry !! fmt))
    ∧ last variants = Some largest
    ∧ (∀ v, v ∈ variants → (width_of v ≤ width_of largest)%Z)
    ∧ cat_picture =
        "<picture>"
        +:+ String.concat "" (build_sources cat_entry (sizes_value_of cat_attrs))
        +:+ ("<img"
             +:+ _render_attributes
                   ([("src", Some ("/" +:+ path_of largest))]
                    ++ filter (λ a : attr,
                         lower a.1 ∉ ["src"; "srcset"; "sizes"; "data-img-sizes"]) cat_attrs
                    ++ [("srcset", Some (srcset_of variants))]
                    ++ [("sizes", Some (sizes_value_of cat_attrs))])
             +:+ ">")
        +:+ "</picture>".
Proof.
  apply (fallback_img cat_attrs cat_entry cat_picture). vm_compute. reflexivity.
Defined.

(** ** The parser *)

Lemma append_nil_r (s : string) : s +:+ "" = s.
Proof.
  induction s as [|a s IH]; [done|].
  change (String a (s +:+ "") = String a s). by rewrite IH.
Qed.

Lemma append_assoc (s t u : string) : (s +:+ t) +:+ u = s +:+ (t +:+ u).
Proof.
  induction s as [|a s IH]; [done|].
  change (String a ((s +:+ t) +:+ u) = String a (s +:+ (t +:+ u))). by rewrite IH.
Qed.

Lemma concat_empty_app (l k : list string) :
  String.concat "" (l ++ k) = String.concat "" l +:+ String.concat "" k.
Proof.
  induction l as [|x l IH]; simpl; [done|].
  destruct l as [|y l]; simpl in *.
  - destruct k; simpl; [by rewrite append_nil_r|done].
  - rewrite IH. by rewrite !append_assoc.
Qed.

(** A callback only appends to the output, and what it appends does not
    depend on what was emitted before. *)
Lemma handle_appends (m : Manifest) (out : list string) (e : event) :
  handle (Parser m out) e = Parser m (out ++ output (handle (Parser m []) e)).
Proof.
  assert (∀ tag attrs raw,
    _handle_start (Parser m out) tag attrs raw
    = Parser m (out ++ output (_handle_start (Parser m []) tag attrs raw))) as Hstart.
  { intros tag attrs raw. unfold _handle_start, _build_replacement, append. simpl.
    repeat (case_match; simpl; try done); by rewrite ?app_nil_r. }
  destruct e; simpl; try apply Hstart; done.
Qed.

Lemma foldl_handle_appends (m : Manifest) (out : list string) (evs : list event) :
  foldl handle (Parser m out) evs
  = Parser m (out ++ output (foldl handle (Parser m []) evs)).
Proof.
  revert out. induction evs as [|e evs IH]; intros out; simpl.
  - by rewrite app_nil_r.
  - rewrite handle_appends.
    pose proof (handle_appends m [] e) as He.
    destruct (handle (Parser m []) e) as [m' piece]. simpl in *.
    injection He as ->.
    rewrite IH, (IH piece). simpl. by rewrite app_assoc.
Qed.

Lemma emitted_app (m : Manifest) (pre post : list event) :
  emitted m (pre ++ post) = emitted m pre +:+ emitted m post.
Proof.
  unfold emitted, get_html. rewrite foldl_app.
  destruct (foldl handle _ pre) as [m' out] eqn:E.
  pose proof (foldl_handle_appends m [] pre) as H. rewrite E in H.
  injection H as ->. rewrite foldl_handle_appends. simpl.
  by rewrite concat_empty_app.
Qed.

Lemma emitted_split (m : Manifest) (pre post : list event) (e : event) :
  emitted m (pre ++ e :: post) = emitted m pre +:+ emitted m [e] +:+ emitted m post.
Proof.
  rewrite (emitted_app m pre (e :: post)).
  change (e :: post) with ([e] ++ post). by rewrite (emitted_app m [e] post).
Qed.

(** A start tag for which no replacement is built is emitted as written. *)
Lemma start_tag_verbatim (m : Manifest) (tag : string) (attrs : list attr) (raw : string) :
  _build_replacement (Parser m []) attrs = None →
  get_html (_handle_start (Parser m []) tag attrs raw) = raw.
Proof.
  intros H. unfold _handle_start. rewrite H.
  destruct (decide _); by destruct raw.
Qed.

Lemma build_replacement_no_src (self : ImageReplacementParser) (attrs : list attr) :
  (∀ src, attr_value attrs "src" = Some src → src = "") →
  _build_replacement self attrs = None.
Proof.
  intros H. unfold _build_replacement. rewrite attrs_dict_lookup.
  destruct (attr_value attrs "src") as [src|]; [|done].
  by rewrite (H src eq_refl).
Qed.



Lemma replace_scanned (scan : string → list event) (html : string) (m : Manifest) :
  html ≠ "" → m ≠ ∅ →
  replace_images_with_processed scan html m = emitted m (scan html).
Proof.
  intros Hh Hm. unfold replace_images_with_processed.
  rewrite bool_decide_eq_false_2 by done. by destruct html.
Qed.

Lemma replace_noop (scan : string → list event) (html : string) (m : Manifest) :
  html = "" ∨ m = ∅ → replace_images_with_processed scan html m = html.
Proof.
  unfold replace_images_with_processed. intros [->| ->]; [done|].
  rewrite bool_decide_eq_true_2 by done. by rewrite orb_true_r.
Qed.

(** C1.  On the image [<img src="/assets/images/cat.jpg" alt="c">], which
    the parser reports as one start tag [img] with the attributes [src] and
    [alt], and the manifest with the 400 and 800 pixel jpg variants of
    [cat.jpg], the rewriter returns exactly the [<picture>] of the
    specification, its children following each other without whitespace. *)
Theorem rewrite_cat (scan : string → list event) :
  scan cat_html = [StartTag "img" cat_attrs cat_html] →
  replace_images_with_processed scan cat_html cat_manifest = cat_picture.
Proof.
  intros H. unfold replace_images_with_processed, feed. rewrite H.
  vm_compute. reflexivity.
Qed.

Lemma rewrite_cat_witness :
  RefScanner.scan cat_html = [StartTag "img" cat_attrs cat_html]
  ∧ replace_images_with_processed RefScanner.scan cat_html cat_manifest = cat_picture.
Proof.
  split; [vm_compute; reflexivity|].
  apply (rewrite_cat RefScanner.scan). vm_compute. reflexivity.
Defined.



(** C10.  Whatever the manifest, an [img] start tag without a [src]
    attribute, or whose [src] attributes carry no or an empty value, is never
    rewritten: its original text appears in the output. *)
Theorem img_without_src (scan : string → list event) (m : Manifest) (html : string)
    (pre post : list event) (e : event) (tag : string) (attrs : list attr) (raw : string) :
  scan html = pre ++ e :: post →
  e = StartTag tag attrs raw ∨ e = StartEndTag tag attrs raw →
  lower tag = "img" →
  (∀ a : attr, a ∈ attrs → lower a.1 = "src" → a.2 = None ∨ a.2 = Some "") →
  replace_images_with_processed scan html m
  = if decide (html = "" ∨ m = ∅) then html
    else emitted m pre +:+ raw +:+ emitted m post.
Proof.
  intros Hscan He Htag Hattrs. destruct (decide _) as [H|H].
  - by apply replace_noop.
  - assert (html ≠ "" ∧ m ≠ ∅) as [Hh Hm] by tauto.
    rewrite replace_scanned, Hscan, emitted_split by done.
    assert (emitted m [e] = raw) as ->; [|done].
    assert (_build_replacement (Parser m []) attrs = None) as Hnone.
    { apply build_replacement_no_src. intros src Hsrc.
      apply attr_value_Some in Hsrc as (a & Hin & Hname & Hval).
      destruct (Hattrs a Hin Hname) as [E|E]; rewrite E in Hval; congruence. }
    unfold emitted. destruct He as [-> | ->]; simpl; by apply start_tag_verbatim.
Qed.

Lemma img_without_src_witness :
  replace_images_with_processed RefScanner.scan nosrc_html cat_manifest = nosrc_html.
Proof.
  rewrite (img_without_src RefScanner.scan cat_manifest nosrc_html []
             [StartTag "b" [] "<b>"; Data "x"; EndTag "b"]
             (StartTag "img" [("alt", Some "logo")]
                ("<img alt=" +:+ dquote +:+ "logo" +:+ dquote +:+ ">"))
             "img" [("alt", Some "logo")]
             ("<img alt=" +:+ dquote +:+ "logo" +:+ dquote +:+ ">")).
  - vm_compute. reflexivity.
  - vm_compute. reflexivity.
  - left. reflexivity.
  - vm_compute. reflexivity.
  - intros a Ha. apply list_elem_of_singleton in Ha as ->. vm_compute. discriminate.
Defined.

(** ** Date normalisation *)

(** C7 (amended).  [parse_file] rewrites a non-empty [date] value to the
    [YYYY-MM-DD] string of the date it denotes when the value is a datetime
    object or when [datetime.fromisoformat] accepts its text; in particular
    a date object, whose text is already [YYYY-MM-DD], is stored as that
    text.  When [fromisoformat] rejects the text, as it does for [2024-3-5],
    the page dictionary is left exactly as it was; nothing is raised. *)
Theorem date_normalization (fromisoformat : string → option datetime)
    (page_config : page_data) (value : pyval) :
  page_config !! "date" = Some value →
  truthy value = true →
  (∀ d, value = VDateTime d →
     normalize_date fromisoformat page_config
     = <["date" := VStr (strftime_ymd d)]> page_config)
  ∧ (∀ parsed, (∀ d, value ≠ VDateTime d) →
       fromisoformat (py_str value) = Some parsed →
       normalize_date fromisoformat page_config
       = <["date" := VStr (strftime_ymd parsed)]> page_config)
  ∧ (∀ y m d, value = VDate y m d →
       fromisoformat (py_str value) = Some (DateTime y m d 0 0 0) →
       normalize_date fromisoformat page_config
       = <["date" := VStr (py_str value)]> page_config)
  ∧ ((∀ d, value ≠ VDateTime d) →
     fromisoformat (py_str value) = None →
     normalize_date fromisoformat page_config = page_config).
Proof.
  intros Hdate Htruthy. unfold normalize_date. rewrite Hdate, Htruthy.
  split_and!.
  - by intros d ->.
  - intros parsed Hnot ->. destruct value; try done. by destruct (Hnot d).
  - by intros y m d -> ->.
  - intros Hnot ->. destruct value; try done. by destruct (Hnot d).
Qed.

Lemma date_normalization_witness :
  normalize_date RefDatetime.fromisoformat {[ "date" := VDate 2024 3 5 ]}
  = {[ "date" := VStr "2024-03-05" ]}.
Proof.
  destruct (date_normalization RefDatetime.fromisoformat
              {[ "date" := VDate 2024 3 5 ]} (VDate 2024 3 5))
    as (_ & _ & H & _).
  - vm_compute. reflexivity.
  - reflexivity.
  - rewrite (H 2024%Z 3%Z 5%Z); vm_compute; reflexivity.
Defined.

(** C7, as stated, fails on its own example: [2024-3-5] is not in ISO
    format (month and day need two digits), [fromisoformat] rejects it and
    the value stays [2024-3-5] instead of becoming [2024-03-05]. *)
Lemma date_normalization_counterexample :
  RefDatetime.fromisoformat "2024-3-5" = None
  ∧ normalize_date RefDatetime.fromisoformat {[ "date" := VStr "2024-3-5" ]}
    = {[ "date" := VStr "2024-3-5" ]}
  ∧ normalize_date RefDatetime.fromisoformat {[ "date" := VStr "2024-3-5" ]}
    ≠ {[ "date" := VStr "2024-03-05" ]}.
Proof.
  split_and!.
  - vm_compute. reflexivity.
  - vm_compute. reflexivity.
  - intros H. apply (f_equal (λ d : page_data, d !! "date")) in H.
    vm_compute in H. discriminate.
Qed.

(** ** Sorting the posts *)

(** [dt_ord] orders datetimes as the field-by-field comparison does. *)
Lemma dt_ord_lex (a b : datetime) :
  (0 ≤ month a ≤ 12 ∧ 0 ≤ day a ≤ 31 ∧ 0 ≤ hour a < 24
   ∧ 0 ≤ minute a < 60 ∧ 0 ≤ second a < 60)%Z →
  (0 ≤ month b ≤ 12 ∧ 0 ≤ day b ≤ 31 ∧ 0 ≤ hour b < 24
   ∧ 0 ≤ minute b < 60 ∧ 0 ≤ second b < 60)%Z →
  (dt_ord a < dt_ord b)%Z ↔
  (year a < year b
   ∨ year a = year b ∧
     (month a < month b
      ∨ month a = month b ∧
        (day a < day b
         ∨ day a = day b ∧
           (hour a < hour b
            ∨ hour a = hour b ∧
              (minute a < minute b
               ∨ minute a = minute b ∧ second a < second b)))))%Z.
Proof. destruct a, b. unfold dt_ord. simpl. lia. Qed.

Lemma mapM_result_inv {A B} (f : A → result B) (l : list A) (k : list B) :
  mapM f l = Ok k → Forall2 (λ x y, f x = Ok y) l k.
Proof.
  revert k. induction l as [|x l IH]; intros k; simpl.
  - intros [= <-]. constructor.
  - destruct (f x) as [y|] eqn:Ex; simpl; [|done].
    destruct (mapM f l) as [k'|]; simpl; [|done].
    intros [= <-]. constructor; [done|]. by apply IH.
Qed.


Lemma StronglySorted_fmap_Forall {A B} (P : A → Prop) (R : relation A)
    (R' : relation B) (f : A → B) (l : list A) :
  (∀ a b, P a → P b → R a b → R' (f a) (f b)) →
  Forall P l → StronglySorted R l → StronglySorted R' (f <$> l).
Proof.
  intros HR HP Hs. induction Hs as [|x l Hs IH Hx]; simpl; [constructor|].
  apply Forall_cons in HP as [Px Pl]. constructor; [by apply IH|].
  apply Forall_fmap, Forall_forall. intros y Hy.
  rewrite Forall_forall in Hx, Pl. apply HR; auto.
Qed.

(** The outcome of [sort(key=..., reverse=True)]: the same posts, newest
    first. *)
Lemma sort_reverse_spec {A} (key : A → result datetime) (l r : list A) :
  sort_reverse key l = Ok r →
  r ≡ₚ l ∧ StronglySorted (newest_first key) r.
Proof.
  unfold sort_reverse. destruct (mapM key l) as [keys|] eqn:E; simpl; [|done].
  intros [= <-]. apply mapM_result_inv in E.
  assert (Forall (λ kx : datetime * A, key kx.2 = Ok kx.1) (zip keys l)) as Hkeys.
  { induction E; simpl; constructor; auto. }
  assert ((zip keys l).*2 = l) as Hsnd.
  { apply snd_zip. by rewrite (Forall2_length _ _ _ E). }
  set (by_ord := λ kx : datetime * A, dt_ord kx.1).
  split.
  - rewrite <- Hsnd at 2. apply fmap_Permutation.
    rewrite <- Permutation_rev, sorted_by_perm. symmetry. apply Permutation_rev.
  - eapply (StronglySorted_fmap_Forall
              (λ kx : datetime * A, key kx.2 = Ok kx.1) (flip (ascending by_ord))).
    + intros [ka a] [kb b] Ha Hb Hab ka' kb' Ha' Hb'. simpl in *.
      unfold flip, ascending, by_ord in Hab. simpl in Hab. congruence.
    + rewrite <- Permutation_rev, sorted_by_perm, <- Permutation_rev. done.
    + apply StronglySorted_rev, sorted_by_sorted.
Qed.







(** ** Draft filtering *)

Lemma is_draft_spec (pd : page_data) : is_draft pd = true ↔ draft_marked pd.
Proof. unfold is_draft, draft_marked. apply bool_decide_eq_true. Qed.

Lemma is_draft_false (pd : page_data) : is_draft pd = false ↔ ¬ draft_marked pd.
Proof. unfold is_draft, draft_marked. apply bool_decide_eq_false. Qed.

Lemma tags_add_drafts_free (tag : string) (pd : page_data)
    (tags : list (string * list page_data)) :
  ¬ draft_marked pd →
  Forall (λ tp : string * list page_data, Forall (λ pd, ¬ draft_marked pd) tp.2) tags →
  Forall (λ tp : string * list page_data, Forall (λ pd, ¬ draft_marked pd) tp.2)
         (tags_add tag pd tags).
Proof.
  intros Hpd. induction 1 as [|[t posts] rest Hposts Hrest IH]; simpl.
  - repeat constructor. done.
  - destruct (decide (t = tag)); constructor; simpl in *; auto.
    apply Forall_app. split; [done|]. by constructor.
Qed.

Lemma content_step_drafts_free (parse_file : string → option (page_data * string))
    (st : site) (filename : string) :
  drafts_free st → drafts_free (content_step parse_file st filename).
Proof.
  intros (Hp & Ha & Ht & Hs). unfold content_step.
  destruct (endswith filename ".md"); [|done].
  destruct (parse_file _) as [[pd html]|]; [|done].
  destruct (decide (pd = ∅)); [done|].
  destruct (is_draft pd) eqn:E; [done|]. apply is_draft_false in E.
  split_and!; simpl; [|done|done|].
  - apply Forall_app. split; [done|]. by constructor.
  - by rewrite Hs, fmap_app.
Qed.

Lemma posts_step_drafts_free (parse_file : string → option (page_data * string))
    (st st' : site) (filename : string) :
  drafts_free st → posts_step parse_file st filename = Ok st' → drafts_free st'.
Proof.
  intros (Hp & Ha & Ht & Hs). unfold posts_step.
  destruct (endswith filename ".md"); [|by intros [= <-]].
  destruct (parse_file _) as [[pd html]|]; [|by intros [= <-]].
  destruct (decide (pd = ∅)); [by intros [= <-]|].
  destruct (is_draft pd) eqn:E; [by intros [= <-]|]. apply is_draft_false in E.
  assert (Forall (λ p : page_data * string, ¬ draft_marked p.1)
            (pages st ++ [(pd, html)])) as Hp'.
  { apply Forall_app. split; [done|]. by constructor. }
  destruct (decide (get pd "layout" = VStr "post")).
  - destruct (iter_tags _) as [tag_names|]; simpl; [|done]. intros [= <-].
    split_and!; simpl; [done| | |by rewrite Hs, fmap_app].
    + apply Forall_app. split; [done|]. by constructor.
    + clear -Ht E. revert Ht. generalize (tags st).
      induction tag_names as [|tag tag_names IH]; intros tg Htg; simpl; [done|].
      by apply IH, tags_add_drafts_free.
  - intros [= <-]. split_and!; simpl; [done|done|done|by rewrite Hs, fmap_app].
Qed.

Lemma collect_drafts_free (parse_file : string → option (page_data * string))
    (listdir_content : list string) (listdir_posts : option (list string)) (st : site) :
  collect parse_file listdir_content listdir_posts = Ok st → drafts_free st.
Proof.
  unfold collect.
  assert (drafts_free (foldl (content_step parse_file) empty_site listdir_content)) as H0.
  { assert (drafts_free empty_site) as He by (by repeat split).
    revert He. generalize empty_site.
    induction listdir_content as [|f l IH]; intros s Hs; simpl; [done|].
    by apply IH, content_step_drafts_free. }
  destruct listdir_posts as [names|]; [|by intros [= <-]].
  revert H0. generalize (foldl (content_step parse_file) empty_site listdir_content).
  induction names as [|f names IH]; intros s Hs; simpl; [by intros [= <-]|].
  destruct (posts_step parse_file s f) as [s'|] eqn:E; simpl; [|done].
  apply IH. by eapply posts_step_drafts_free.
Qed.

(** C8.  In a full build a document whose [draft] value reads, in lower
    case, [true], [1] or [yes] is skipped: the step of either directory walk
    leaves every list as it was, so that after the walks neither the pages to
    render, nor the sitemap, nor the post list, nor the tag index holds a
    draft, and the build renders none.  A document without the mark passes
    the filter: it joins the pages and the sitemap. *)
Theorem draft_filter (parse_file : string → option (page_data * string)) :
  (∀ st filename pd html,
     parse_file (path_join CONTENT_DIR filename) = Some (pd, html) →
     draft_marked pd → content_step parse_file st filename = st)
  ∧ (∀ st filename pd html,
       parse_file (path_join POSTS_DIR filename) = Some (pd, html) →
       draft_marked pd → posts_step parse_file st filename = Ok st)
  ∧ (∀ listdir_content listdir_posts st,
       collect parse_file listdir_content listdir_posts = Ok st →
       Forall (λ p : page_data * string, ¬ draft_marked p.1) (pages st)
       ∧ Forall (λ pd, ¬ draft_marked pd) (all_posts st)
       ∧ Forall (λ tp : string * list page_data,
                   Forall (λ pd, ¬ draft_marked pd) tp.2) (tags st)
       ∧ sitemap_list st = (λ p : page_data * string, get p.1 "url") <$> pages st)
  ∧ (∀ strptime listdir_content listdir_posts has_tag_template w b,
       main_full parse_file strptime listdir_content listdir_posts has_tag_template w
       = Ok b →
       Forall (λ p : page_data * string, ¬ draft_marked p.1) (rendered b)
       ∧ sitemap b = (λ p : page_data * string, get p.1 "url") <$> rendered b
       ∧ Forall (λ pd, ¬ draft_marked pd) (posts_sorted b))
  ∧ (∀ st filename pd html,
       endswith filename ".md" = true →
       parse_file (path_join CONTENT_DIR filename) = Some (pd, html) →
       pd ≠ ∅ → ¬ draft_marked pd →
       pages (content_step parse_file st filename) = pages st ++ [(pd, html)]
       ∧ sitemap_list (content_step parse_file st filename)
         = sitemap_list st ++ [get pd "url"])
  ∧ (∀ st filename pd html,
       endswith filename ".md" = true →
       parse_file (path_join POSTS_DIR filename) = Some (pd, html) →
       pd ≠ ∅ → ¬ draft_marked pd →
       (∃ st', posts_step parse_file st filename = Ok st'
               ∧ pages st' = pages st ++ [(pd, html)]
               ∧ sitemap_list st' = sitemap_list st ++ [get pd "url"])
       ∨ (get pd "layout" = VStr "post"
          ∧ iter_tags (get pd "tags") = Raise "TypeError"
          ∧ posts_step parse_file st filename = Raise "TypeError")).
Proof.
  split_and!.
  - intros st filename pd html Hp Hd%is_draft_spec. unfold content_step.
    rewrite Hp, Hd. by repeat case_match.
  - intros st filename pd html Hp Hd%is_draft_spec. unfold posts_step.
    rewrite Hp, Hd. by repeat case_match.
  - intros lc lp st H. by apply collect_drafts_free in H.
  - intros strptime lc lp t w b. unfold main_full.
    destruct (collect parse_file lc lp) as [st|] eqn:E; simpl; [|done].
    apply collect_drafts_free in E as (Hp & Ha & _ & Hs).
    destruct (reconcile _ _ _) as [w1 log].
    destruct (sort_reverse _ (all_posts st)) as [posts|] eqn:Es; simpl; [|done].
    apply sort_reverse_spec in Es as [Hperm _].
    destruct (if t then _ else _) as [listings|]; simpl; [|done].
    intros [= <-]. simpl. split_and!; [done|done|]. by rewrite Hperm.
  - intros st filename pd html He Hp Hne Hd%is_draft_false. unfold content_step.
    rewrite He, Hp, Hd. by destruct (decide (pd = ∅)).
  - intros st filename pd html He Hp Hne Hd%is_draft_false. unfold posts_step.
    rewrite He, Hp, Hd. destruct (decide (pd = ∅)); [done|].
    destruct (decide (get pd "layout" = VStr "post")) as [Hl|Hl].
    + unfold iter_tags. destruct (truthy (get pd "tags")); simpl; [|by left; eexists].
      destruct (get pd "tags"); simpl; (by left; eexists) || by right.
    + left. by eexists.
Qed.

Lemma draft_filter_witness :
  ∃ st, collect sample_parse_file ["about.md"; "wip.md"] (Some ["hello.md"]) = Ok st
        ∧ (pages st).*2 = ["<p>about</p>"; "<p>hello</p>"]
        ∧ Forall (λ p : page_data * string, ¬ draft_marked p.1) (pages st).
Proof.
  destruct (collect sample_parse_file ["about.md"; "wip.md"] (Some ["hello.md"]))
    as [st|] eqn:E; [|by vm_compute in E].
  exists st. split; [done|]. split.
  - vm_compute in E. injection E as <-. reflexivity.
  - by apply (draft_filter sample_parse_file) in E as (H & _).
Defined.

(** ** The output tree *)

Lemma prefix_app_iff (p s : string) :
  String.prefix p s = true ↔ ∃ t, s = p +:+ t.
Proof.
  revert s. induction p as [|a p IH]; intros [|b s]; simpl.
  - split; [by exists ""|done].
  - split; [by exists (String b s)|done].
  - split; [done|by intros [t [=]]].
  - destruct (Ascii.ascii_dec a b) as [->|Hne].
    + rewrite IH. split; intros [t Ht]; exists t.
      * by rewrite Ht.
      * by injection Ht.
    + split; [done|]. intros [t [= <- _]]. done.
Qed.



Lemma rmtree_dirs (d p : string) (w : world) :
  p ∈ dirs (rmtree d w) ↔ p ∈ dirs w ∧ under d p = false.
Proof.
  unfold rmtree. simpl. rewrite elem_of_filter, Is_true_false. tauto.
Qed.

Lemma rmtree_files (d p : string) (w : world) :
  p ∈ files (rmtree d w) ↔ p ∈ files w ∧ under d p = false.
Proof.
  unfold rmtree. simpl. rewrite elem_of_filter, Is_true_false. tauto.
Qed.



(** ** Slug reconciliation *)


Lemma rmtree_gone (d : string) (w : world) : gone d (rmtree d w).
Proof.
  intros p Hp. rewrite rmtree_dirs, rmtree_files, Hp. split; by intros [_ ?].
Qed.









Lemma contains_slash_app (a b : string) : contains "/" (a +:+ "/" +:+ b) = true.
Proof.
  unfold contains. induction a as [|c a IH].
  - by destruct b.
  - change (String c a +:+ "/" +:+ b) with (String c (a +:+ "/" +:+ b)).
    cbn [find_sub]. destruct (String.prefix "/" _); [done|].
    by destruct (find_sub "/" (a +:+ "/" +:+ b)) as [[? ?]|].
Qed.




(** ** Single-file rebuild of a deleted document *)

Lemma remove_slug_cache_spec (w : world) :
  slug_cache (remove_slug_cache w) = CacheAbsent
  ∧ dirs (remove_slug_cache w) = dirs w
  ∧ files (remove_slug_cache w) = files w.
Proof. by destruct w as [d f [| |slugs]]. Qed.

(** What the deletion branch does for every missing file: it compiles and
    renders nothing, removes the slug cache, leaves the tree alone when the
    base name is [index], and otherwise deletes the directory named after
    the base name of the file. *)
Lemma main_file_deleted (file : string) (w : world) :
  path_exists file w = false →
  (main_file file w).2 = []
  ∧ slug_cache (main_file file w).1 = CacheAbsent
  ∧ (splitext_root (basename file) = "index" →
     dirs (main_file file w).1 = dirs w ∧ files (main_file file w).1 = files w)
  ∧ (splitext_root (basename file) ≠ "index" →
     isdir (path_join OUTPUT_DIR (splitext_root (basename file))) w = true →
     gone (path_join OUTPUT_DIR (splitext_root (basename file))) (main_file file w).1).
Proof.
  intros He. unfold main_file. rewrite He. cbn [negb fst snd].
  set (slug := splitext_root (basename file)).
  destruct (remove_slug_cache_spec
              (if decide (slug ≠ "index")
               then if isdir (path_join OUTPUT_DIR slug) w
                    then rmtree (path_join OUTPUT_DIR slug) w else w
               else w)) as (Hc & Hd & Hf).
  split_and!; [done|done| |].
  - intros E. rewrite Hd, Hf, decide_False; [done|]. by intros ?.
  - intros Hne Hdir p Hp. rewrite Hd, Hf, decide_True, Hdir by done.
    by apply rmtree_gone.
Qed.

(** For a page directly under [content/] that directory is the one
    [render_page] wrote the page to. *)
Lemma output_dir_of_page (file : string) :
  startswith (normpath file) (normpath POSTS_DIR) = false →
  splitext_root (basename file) ≠ "index" →
  splitext_root (basename file) ≠ "" →
  startswith (splitext_root (basename file)) "/" = false →
  output_dir_of file = path_join OUTPUT_DIR (splitext_root (basename file)).
Proof.
  intros Hp Hi Hne Hs. unfold output_dir_of, page_url. rewrite Hp.
  rewrite (decide_False (P := splitext_root (basename file) = "index")) by done.
  set (slug := splitext_root (basename file)) in *.
  assert (lstrip "/" ("/" +:+ slug) = slug) as ->.
  { change (lstrip "/" slug = slug). destruct slug as [|a slug]; [done|].
    unfold startswith in Hs. simpl in *.
    destruct (Ascii.ascii_dec "/" a) as [<-|Ha]; [by destruct slug|].
    destruct (Ascii.eqb a "/") eqn:E; [|done]. apply Ascii.eqb_eq in E. congruence. }
  destruct (decide (_ = "/")) as [E|E]; [|done].
  destruct Hne. by injection E.
Qed.

(** C9 fails for posts.  The post [content/posts/hello.md] is rendered to
    [./posts/hello]; when its source is gone, the deletion branch takes the
    base name [hello] alone, deletes [./hello], which belongs to the page
    [content/hello.md], and leaves [./posts/hello] in place.  The slug cache
    is removed and nothing is compiled or rendered, as claimed. *)
Theorem deleted_post_keeps_output :
  path_exists "content/posts/hello.md" deleted_post_world = false
  ∧ output_dir_of "content/posts/hello.md" = "./posts/hello"
  ∧ output_dir_of "content/hello.md" = "./hello"
  ∧ dirs (main_file "content/posts/hello.md" deleted_post_world).1
    = {[ "./posts"; "./posts/hello" ]}
  ∧ files (main_file "content/posts/hello.md" deleted_post_world).1
    = {[ "content/hello.md"; "./posts/hello/index.html" ]}
  ∧ slug_cache (main_file "content/posts/hello.md" deleted_post_world).1 = CacheAbsent
  ∧ (main_file "content/posts/hello.md" deleted_post_world).2 = [].
Proof. repeat split; vm_compute; reflexivity. Qed.

(** ** Cleaning the output tree *)

Lemma tree_nested_ind (P : tree → Prop) :
  P File → (∀ entries, Forall (λ e : string * tree, P e.2) entries → P (Dir entries)) →
  ∀ t, P t.
Proof.
  intros HF HD. fix IH 1. intros [|entries]; [exact HF|].
  apply HD. induction entries as [|e entries IHes]; constructor; [apply IH|exact IHes].
Qed.

Lemma clean_dir_is_dir (top_level : string) (entries : list (string * tree)) :
  ∃ kept, clean_dir top_level (Dir entries) = Dir kept.
Proof. by eexists. Qed.

Lemma flat_map_nil_Forall {A B} (f : A → list B) (l : list A) :
  Forall (λ x, f x = []) l → flat_map f l = [].
Proof. induction 1 as [|x l Hx _ IH]; simpl; [done|]. by rewrite Hx, IH. Qed.

Lemma flat_map_ext_Forall {A B} (f g : A → list B) (l : list A) :
  Forall (λ x, f x = g x) l → flat_map f l = flat_map g l.
Proof. induction 1 as [|x l Hx _ IH]; simpl; [done|]. by rewrite Hx, IH. Qed.

(** Below a generated root nothing is left. *)
Lemma clean_dir_generated (top_level : string) (t : tree) :
  top_level ∈ generated_roots →
  clean_dir top_level t = match t with File => File | Dir _ => Dir [] end.
Proof.
  intros Hg. induction t as [|entries IH] using tree_nested_ind; [done|].
  simpl. f_equal. apply flat_map_nil_Forall.
  eapply Forall_impl; [exact IH|]. intros [name child] Hc. simpl in Hc.
  unfold clean_entry. simpl. destruct child as [|sub].
  - unfold delete_file. by rewrite bool_decide_eq_true_2.
  - by rewrite Hc.
Qed.

Lemma flat_map_flat_map {A B C} (f : A → list B) (g : B → list C) (l : list A) :
  flat_map g (flat_map f l) = flat_map (λ x, flat_map g (f x)) l.
Proof.
  induction l as [|x l IH]; simpl; [done|]. by rewrite flat_map_app, IH.
Qed.

Lemma filter_flat_map_bool {A B} (k : B → bool) (f : A → list B) (l : list A) :
  List.filter k (flat_map f l) = flat_map (λ x, List.filter k (f x)) l.
Proof.
  induction l as [|x l IH]; simpl; [done|]. by rewrite List.filter_app, IH.
Qed.

Lemma filter_map_cons (k k' : list string → bool) (name : string)
    (paths : list (list string)) :
  (∀ p, p ∈ paths → k' (name :: p) = k p) →
  List.filter k' (map (cons name) paths) = map (cons name) (List.filter k paths).
Proof.
  induction paths as [|p paths IH]; intros H; simpl; [done|].
  rewrite (H p) by left. rewrite IH by (intros q Hq; apply H; by right).
  by destruct (k p).
Qed.

Lemma file_paths_dir_nonempty (entries : list (string * tree)) (p : list string) :
  p ∈ file_paths (Dir entries) → p ≠ [].
Proof.
  simpl. intros H%list_elem_of_In%in_flat_map. destruct H as (e & _ & H).
  apply in_map_iff in H as (q & <- & _). done.
Qed.

Lemma keep_under_cons (top_level name : string) (p : list string) :
  p ≠ [] → keep_under top_level (name :: p) = keep_under top_level p.
Proof. unfold keep_under. by destruct p. Qed.

(** Below a top level directory the walk keeps exactly the files whose flag
    is off. *)
Lemma clean_dir_files (top_level : string) (entries : list (string * tree)) :
  file_paths (clean_dir top_level (Dir entries))
  = List.filter (keep_under top_level) (file_paths (Dir entries)).
Proof.
  revert entries.
  assert (∀ t, match t with
               | File => True
               | Dir entries =>
                   file_paths (clean_dir top_level t)
                   = List.filter (keep_under top_level) (file_paths t)
               end) as H; [|intros entries; apply (H (Dir entries))].
  induction t as [|entries IH] using tree_nested_ind; [done|].
  cbn [clean_dir file_paths]. rewrite flat_map_flat_map, filter_flat_map_bool.
  apply flat_map_ext_Forall. eapply Forall_impl; [exact IH|].
  intros [name child] Hc. cbn [fst snd] in *. unfold clean_entry. cbn [fst snd].
  destruct child as [|sub].
  - unfold keep_under. simpl. by destruct (delete_file top_level name).
  - rewrite (filter_map_cons (keep_under top_level)).
    + rewrite <- Hc. destruct (clean_dir top_level (Dir sub)) as [|[|e kept]] eqn:E.
      * done.
      * done.
      * simpl. by rewrite app_nil_r.
    + intros p Hp. apply keep_under_cons. by eapply file_paths_dir_nonempty.
Qed.

Lemma clean_entry_inv (top_level : string) (e e' : string * tree) :
  e' ∈ clean_entry (clean_dir top_level) top_level e →
  (e.2 = File ∧ e' = e ∧ delete_file top_level e.1 = false)
  ∨ (∃ sub k kept, e.2 = Dir sub
       ∧ clean_dir top_level (Dir sub) = Dir (k :: kept)
       ∧ e' = (e.1, Dir (k :: kept))).
Proof.
  destruct e as [name [|sub]]; unfold clean_entry; cbn [fst snd].
  - destruct (delete_file top_level name); [by intros ?%not_elem_of_nil|].
    intros ->%list_elem_of_singleton. by left.
  - destruct (clean_dir top_level (Dir sub)) as [|[|k kept]] eqn:E; [done| |].
    + by intros ?%not_elem_of_nil.
    + intros ->%list_elem_of_singleton. right. by exists sub, k, kept.
Qed.

Lemma elem_of_flat_map {A B} (f : A → list B) (l : list A) (y : B) :
  y ∈ flat_map f l ↔ ∃ x, x ∈ l ∧ y ∈ f x.
Proof.
  rewrite list_elem_of_In, in_flat_map. split; intros (x & ? & ?); exists x;
    by rewrite ?list_elem_of_In in *.
Qed.

(** Every directory the walk leaves behind holds a file somewhere below. *)
Lemma clean_dir_no_empty (top_level : string) (t : tree) (d : list string) :
  d ∈ dir_paths (clean_dir top_level t) →
  ∃ rest, rest ≠ [] ∧ d ++ rest ∈ file_paths (clean_dir top_level t).
Proof.
  revert d. induction t as [|entries IH] using tree_nested_ind; intros d.
  { by intros ?%not_elem_of_nil. }
  cbn [clean_dir dir_paths file_paths].
  intros (e' & (e & He & He')%elem_of_flat_map & Hd)%elem_of_flat_map.
  rewrite Forall_forall in IH. specialize (IH e He).
  apply clean_entry_inv in He' as He''.
  destruct He'' as [(Hf & -> & _)|(sub & k & kept & Hsub & Hclean & ->)].
  { rewrite Hf in Hd. by apply not_elem_of_nil in Hd. }
  cbn [fst snd] in Hd. rewrite Hsub, Hclean in IH.
  assert (∃ tl r, d = e.1 :: tl ∧ r ≠ []
                  ∧ tl ++ r ∈ file_paths (Dir (k :: kept))) as Hfile.
  { apply elem_of_cons in Hd as [->|Hd].
    - exists []. destruct k as [kname [|ksub]].
      + exists [kname]. split_and!; [done|done|left].
      + destruct (IH [kname]) as (rest & Hne & Hin); [left|].
        exists ([kname] ++ rest). done.
    - apply list_elem_of_fmap in Hd as (tl & -> & Htl).
      destruct (IH tl Htl) as (rest & Hne & Hin). by exists tl, rest. }
  destruct Hfile as (tl & r & -> & Hr & Hin).
  exists r. split; [done|]. apply elem_of_flat_map. exists (e.1, Dir (k :: kept)).
  split; [apply elem_of_flat_map; by exists e|].
  cbn [fst snd]. by apply (list_elem_of_fmap_2 (cons e.1)) in Hin.
Qed.

(** The step of [clean_output] on one entry of the walked directory. *)
Lemma clean_output_unfold (entries : list (string * tree)) :
  clean_output (Dir entries)
  = Dir (flat_map (λ e : string * tree,
           match e.2 with
           | File => clean_entry (clean_dir "") "" e
           | Dir _ =>
               if bool_decide (e.1 ∈ preserved_roots) then [e]
               else clean_entry (clean_dir e.1) e.1 e
           end) entries).
Proof. done. Qed.

Lemma generated_not_preserved (name : string) :
  name ∈ generated_roots → name ∉ preserved_roots.
Proof.
  assert (Forall (λ g, g ∉ preserved_roots) generated_roots) as H.
  { apply (bool_decide_unpack _). by vm_compute. }
  rewrite Forall_forall in H. apply H.
Qed.

(** X1.  [clean_output] keeps exactly the files that lie under a preserved
    root or are not flagged: under [blog], [tags] and [posts] every file
    goes, elsewhere only [index.html] and [*.xml] files go. *)
Theorem clean_output_files (root : tree) :
  file_paths (clean_output root) = List.filter kept_file (file_paths root).
Proof.
  destruct root as [|entries]; [done|].
  rewrite clean_output_unfold. cbn [file_paths].
  rewrite flat_map_flat_map, filter_flat_map_bool.
  apply flat_map_ext_Forall, Forall_forall. intros [name child] _. cbn [fst snd].
  destruct child as [|sub].
  - unfold clean_entry. simpl. by destruct (delete_file "" name).
  - case_bool_decide as Hp.
    + simpl. rewrite app_nil_r. symmetry.
      rewrite (filter_map_cons (λ _, true)).
      * f_equal. induction (flat_map _ sub) as [|p l IH]; simpl; [done|]. by rewrite IH.
      * intros p Hp'%file_paths_dir_nonempty. destruct p; [done|]. simpl.
        by rewrite bool_decide_eq_true_2.
    + rewrite (filter_map_cons (keep_under name)).
      * rewrite <- clean_dir_files. unfold clean_entry. cbn [fst snd].
        destruct (clean_dir name (Dir sub)) as [|[|e kept]] eqn:E; [done|done|].
        simpl. by rewrite app_nil_r.
      * intros p Hp'%file_paths_dir_nonempty. destruct p as [|q p]; [done|].
        unfold keep_under. cbn [kept_file]. by rewrite bool_decide_eq_false_2.
Qed.

(** X2.  After [clean_output] no directory is left under [blog], [tags] or
    [posts] (the generated roots themselves are removed), and outside the
    preserved roots no directory is left without a file somewhere below
    it. *)
Theorem clean_output_dirs (root : tree) (d : list string) (top_level : string) :
  d ∈ dir_paths (clean_output root) →
  head d = Some top_level →
  (top_level ∉ generated_roots)
  ∧ (top_level ∉ preserved_roots →
     ∃ rest, rest ≠ [] ∧ d ++ rest ∈ file_paths (clean_output root)).
Proof.
  destruct root as [|entries]; [by intros ?%not_elem_of_nil|].
  rewrite clean_output_unfold. cbn [dir_paths file_paths].
  intros (e' & (e & He & He')%elem_of_flat_map & Hd)%elem_of_flat_map Hhead.
  destruct e as [name [|sub]]; cbn [fst snd] in He'.
  { apply clean_entry_inv in He' as [(_ & -> & _)|(? & ? & ? & [=] & _)].
    by apply not_elem_of_nil in Hd. }
  case_bool_decide as Hp.
  - apply list_elem_of_singleton in He' as ->. cbn [fst snd] in Hd.
    assert (top_level = name) as ->.
    { apply elem_of_cons in Hd as [->|(tl & -> & _)%list_elem_of_fmap];
        by injection Hhead. }
    split; [|done]. intros Hg. by apply (generated_not_preserved name).
  - pose proof He' as Hin.
    apply clean_entry_inv in He' as [([=] & _)|(sub' & k & kept & [= <-] & Hclean & ->)].
    cbn [fst snd] in Hd.
    assert (top_level = name) as ->.
    { apply elem_of_cons in Hd as [->|(tl & -> & _)%list_elem_of_fmap];
        by injection Hhead. }
    split.
    { intros Hg. by rewrite (clean_dir_generated name (Dir sub) Hg) in Hclean. }
    intros _.
    assert (∃ tl r, d = name :: tl ∧ r ≠ []
                    ∧ tl ++ r ∈ file_paths (Dir (k :: kept))) as (tl & r & -> & Hr & Hf).
    { rewrite <- Hclean.
      apply elem_of_cons in Hd as [->|(tl & -> & Htl)%list_elem_of_fmap].
      - exists []. destruct k as [kname [|ksub]].
        + exists [kname]. rewrite Hclean. split_and!; [done|done|left].
        + destruct (clean_dir_no_empty name (Dir sub) [kname]) as (rest & Hne & Hr).
          { rewrite Hclean. left. }
          exists ([kname] ++ rest). done.
      - rewrite <- Hclean in Htl.
        destruct (clean_dir_no_empty name (Dir sub) tl Htl) as (rest & Hne & Hr).
        by exists tl, rest. }
    exists r. split; [done|]. apply elem_of_flat_map. exists (name, Dir (k :: kept)).
    split; [apply elem_of_flat_map; exists (name, Dir sub); split; [done|]|].
    + cbn [fst snd]. by rewrite bool_decide_eq_false_2.
    + cbn [fst snd]. by apply (list_elem_of_fmap_2 (cons name)) in Hf.
Qed.

Lemma clean_output_dirs_witness :
  ("about" ∉ generated_roots)
  ∧ ∃ rest, rest ≠ [] ∧ ["about"] ++ rest ∈ file_paths (clean_output sample_tree).
Proof.
  destruct (clean_output_dirs sample_tree ["about"] "about") as [H1 H2].
  - apply (bool_decide_unpack _). vm_compute. exact I.
  - reflexivity.
  - split; [exact H1|]. apply H2. apply (bool_decide_unpack _). vm_compute. exact I.
Defined.

(** X3.  [clean_output] leaves every directory that sits under a preserved
    root name ([.git], [assets], [content], [src], [templates], ...) in the
    walked directory exactly as it was, with all it holds. *)
Theorem clean_output_preserved (entries : list (string * tree)) (name : string)
    (sub : list (string * tree)) :
  name ∈ preserved_roots →
  (name, Dir sub) ∈ entries_of (clean_output (Dir entries)) ↔ (name, Dir sub) ∈ entries.
Proof.
  intros Hp. rewrite clean_output_unfold. cbn [entries_of].
  rewrite elem_of_flat_map. split.
  - intros ([name0 [|sub0]] & Hin & He); cbn [fst snd] in He.
    + apply clean_entry_inv in He as [(_ & ? & _)|(? & ? & ? & ? & _)];
        cbn [fst snd] in *; simplify_eq.
    + case_bool_decide as Hp0.
      * by apply list_elem_of_singleton in He as ->.
      * apply clean_entry_inv in He as [(? & _)|(? & ? & ? & _ & _ & ?)];
          cbn [fst snd] in *; simplify_eq. done.
  - intros Hin. exists (name, Dir sub). split; [done|]. cbn [fst snd].
    rewrite bool_decide_eq_true_2 by done. left.
Qed.

Lemma clean_output_preserved_witness :
  ("content", Dir [("index.md", File); ("feed.xml", File)])
  ∈ entries_of (clean_output sample_tree).
Proof.
  unfold sample_tree.
  apply (proj2 (clean_output_preserved _ "content" [("index.md", File); ("feed.xml", File)]
                  ltac:(apply (bool_decide_unpack _); vm_compute; exact I))).
  do 4 apply list_elem_of_further. apply list_elem_of_here.
Defined.

Lemma clean_entry_idem (top_level : string) (e : string * tree) :
  clean_dir top_level (clean_dir top_level e.2) = clean_dir top_level e.2 →
  flat_map (clean_entry (clean_dir top_level) top_level)
           (clean_entry (clean_dir top_level) top_level e)
  = clean_entry (clean_dir top_level) top_level e.
Proof.
  intros IH. destruct e as [name [|sub]]; unfold clean_entry at 2 3; cbn [fst snd] in *.
  - destruct (delete_file top_level name) eqn:E; [done|]. simpl.
    unfold clean_entry. simpl. by rewrite E.
  - destruct (clean_dir top_level (Dir sub)) as [|[|k kept]] eqn:E; [done|done|].
    cbn [flat_map]. unfold clean_entry. cbn [fst snd]. by rewrite IH.
Qed.

Lemma clean_dir_idem (top_level : string) (t : tree) :
  clean_dir top_level (clean_dir top_level t) = clean_dir top_level t.
Proof.
  induction t as [|entries IH] using tree_nested_ind; [done|].
  cbn [clean_dir]. f_equal. rewrite flat_map_flat_map.
  apply flat_map_ext_Forall. eapply Forall_impl; [exact IH|].
  intros e He. by apply clean_entry_idem.
Qed.

(** X4.  Cleaning is idempotent: a second [clean_output] on a cleaned tree
    changes nothing. *)
Theorem clean_output_idempotent (root : tree) :
  clean_output (clean_output root) = clean_output root.
Proof.
  destruct root as [|entries]; [done|].
  rewrite !clean_output_unfold. f_equal. rewrite flat_map_flat_map.
  apply flat_map_ext_Forall, Forall_forall. intros [name [|sub]] _; cbn [fst snd].
  - unfold clean_entry. cbn [fst snd].
    destruct (delete_file "" name) eqn:E; simpl; by rewrite ?E.
  - case_bool_decide as Hp.
    + simpl. by rewrite bool_decide_eq_true_2.
    + unfold clean_entry. cbn [fst snd].
      destruct (clean_dir name (Dir sub)) as [|[|k kept]] eqn:E; [done|done|].
      cbn [flat_map fst snd]. rewrite bool_decide_eq_false_2 by done.
      rewrite <- E, clean_dir_idem, E. done.
Qed.

(** ** The slug cache across builds *)

Lemma load_save_slugs (slugs : gset string) (w : world) :
  load_previous_slugs (save_current_slugs slugs w) = slugs.
Proof.
  unfold load_previous_slugs, save_current_slugs. cbn [slug_cache].
  apply set_eq. intros x.
  by rewrite elem_of_list_to_set, merge_sort_Permutation, elem_of_elements.
Qed.

(** X5.  Saving a slug set and loading it again gives the same set back;
    the list written to the cache is sorted and free of duplicates, and the
    output tree is not touched by saving. *)
Theorem slug_cache_round_trip (slugs : gset string) (w : world) :
  load_previous_slugs (save_current_slugs slugs w) = slugs
  ∧ (∃ saved, slug_cache (save_current_slugs slugs w) = CacheSlugs saved
              ∧ Sorted String.le saved ∧ NoDup saved)
  ∧ dirs (save_current_slugs slugs w) = dirs w
  ∧ files (save_current_slugs slugs w) = files w.
Proof.
  split_and!; [apply load_save_slugs|eexists; split_and!; [done|..]|done|done].
  - apply Sorted_merge_sort, _.
  - rewrite merge_sort_Permutation. apply NoDup_elements.
Qed.




Lemma contains_slash_cons (c : ascii) (s : string) :
  contains "/" (String c s) = Ascii.eqb c "/" || contains "/" s.
Proof.
  unfold contains. cbn [find_sub String.prefix].
  destruct (Ascii.ascii_dec "/" c) as [<-|Hne].
  - by destruct s.
  - assert (Ascii.eqb c "/" = false) as -> by (apply Ascii.eqb_neq; congruence).
    by destruct (find_sub "/" s) as [[? ?]|].
Qed.

Lemma rsplit_dot_no_slash (s : string) :
  contains "/" s = false → contains "/" (rsplit_dot s) = false.
Proof.
  induction s as [|c s IH]; [done|]. rewrite contains_slash_cons.
  intros [Hc Hs]%orb_false_iff. cbn [rsplit_dot].
  destruct (contains "." s).
  - by rewrite contains_slash_cons, Hc, IH.
  - destruct (Ascii.eqb c "."); [done|]. by rewrite contains_slash_cons, Hc, Hs.
Qed.

Lemma splitext_root_no_slash (name : string) :
  contains "/" name = false → contains "/" (splitext_root name) = false.
Proof.
  intros H. unfold splitext_root.
  destruct (contains "." _); [by apply rsplit_dot_no_slash|done].
Qed.

Lemma content_step_slugs (parse_file : string → option (page_data * string))
    (st : site) (filename s : string) :
  s ∈ current_slugs (content_step parse_file st filename) →
  s ∈ current_slugs st ∨ (endswith filename ".md" = true ∧ s = splitext_root filename).
Proof.
  unfold content_step. destruct (endswith filename ".md"); [|by left].
  destruct (parse_file _) as [[pd html]|]; [|by left].
  destruct (decide (pd = ∅)); [by left|]. destruct (is_draft pd); [by left|].
  cbn [current_slugs]. rewrite elem_of_union, elem_of_singleton. intros [->|?]; auto.
Qed.

Lemma posts_step_slugs (parse_file : string → option (page_data * string))
    (st st' : site) (filename s : string) :
  posts_step parse_file st filename = Ok st' →
  s ∈ current_slugs st' →
  s ∈ current_slugs st
  ∨ (endswith filename ".md" = true ∧ s = "posts/" +:+ splitext_root filename).
Proof.
  unfold posts_step. destruct (endswith filename ".md"); [|intros [= <-]; by left].
  destruct (parse_file _) as [[pd html]|]; [|intros [= <-]; by left].
  destruct (decide (pd = ∅)); [intros [= <-]; by left|].
  destruct (is_draft pd); [intros [= <-]; by left|].
  destruct (decide (get pd "layout" = VStr "post")).
  - destruct (iter_tags _); simpl; [|done]. intros [= <-]. cbn [current_slugs].
    rewrite elem_of_union, elem_of_singleton. intros [->|?]; auto.
  - intros [= <-]. cbn [current_slugs].
    rewrite elem_of_union, elem_of_singleton. intros [->|?]; auto.
Qed.

(** X7.  Every slug a full build records comes from a listed [.md] file:
    the stem of a file of the content directory, or [posts/] and the stem of
    a file of the posts directory.  File names holding no slash therefore
    give page slugs without a slash and post slugs of the form
    [posts/<stem>], and no page slug can equal a post slug. *)
Theorem collected_slugs (parse_file : string → option (page_data * string))
    (listdir_content : list string) (listdir_posts : option (list string))
    (st : site) (s : string) :
  collect parse_file listdir_content listdir_posts = Ok st →
  s ∈ current_slugs st →
  ((∃ f, f ∈ listdir_content ∧ endswith f ".md" = true ∧ s = splitext_root f
         ∧ (contains "/" f = false → contains "/" s = false))
   ∨ (∃ names f, listdir_posts = Some names ∧ f ∈ names ∧ endswith f ".md" = true
         ∧ s = "posts/" +:+ splitext_root f
         ∧ (contains "/" f = false → contains "/" (splitext_root f) = false))).
Proof.
  unfold collect.
  assert (∀ l st0, s ∈ current_slugs (foldl (content_step parse_file) st0 l) →
            s ∈ current_slugs st0
            ∨ ∃ f, f ∈ l ∧ endswith f ".md" = true ∧ s = splitext_root f) as Hc.
  { induction l as [|f l IH]; intros st0; simpl; [by left|].
    intros [[?|[? ?]]%content_step_slugs|(f' & ? & ?)]%IH; [by left|..].
    - right. exists f. split; [left|done].
    - right. exists f'. split; [by right|done]. }
  assert (∀ l st0 st1, for_each (posts_step parse_file) st0 l = Ok st1 →
            s ∈ current_slugs st1 →
            s ∈ current_slugs st0
            ∨ ∃ f, f ∈ l ∧ endswith f ".md" = true
                   ∧ s = "posts/" +:+ splitext_root f) as Hp.
  { induction l as [|f l IH]; intros st0 st1; simpl; [intros [= <-]; by left|].
    destruct (posts_step parse_file st0 f) as [st'|] eqn:E; simpl; [|done].
    intros Hl Hs. destruct (IH _ _ Hl Hs) as [Hs'|(f' & ? & ?)].
    - destruct (posts_step_slugs _ _ _ _ _ E Hs') as [?|[? ?]]; [by left|].
      right. exists f. split; [left|done].
    - right. exists f'. split; [by right|done]. }
  intros Hcollect Hs.
  assert (s ∈ current_slugs (foldl (content_step parse_file) empty_site listdir_content)
          ∨ ∃ names f, listdir_posts = Some names ∧ f ∈ names
              ∧ endswith f ".md" = true ∧ s = "posts/" +:+ splitext_root f) as [H|H].
  { destruct listdir_posts as [names|].
    - destruct (Hp _ _ _ Hcollect Hs) as [?|(f & ? & ? & ?)]; [by left|].
      right. by exists names, f.
    - injection Hcollect as <-. by left. }
  - apply Hc in H as [H|(f & ? & ? & ->)]; [by apply not_elem_of_empty in H|].
    left. exists f. split_and!; try done. apply splitext_root_no_slash.
  - destruct H as (names & f & ? & ? & ? & ->). right. exists names, f.
    split_and!; try done. apply splitext_root_no_slash.
Qed.

Lemma collected_slugs_witness :
  ∃ st, collect sample_parse_file ["about.md"; "wip.md"] (Some ["hello.md"]) = Ok st
        ∧ "posts/hello" ∈ current_slugs st
        ∧ ((∃ f, f ∈ ["about.md"; "wip.md"] ∧ endswith f ".md" = true
                 ∧ "posts/hello" = splitext_root f
                 ∧ (contains "/" f = false → contains "/" "posts/hello" = false))
           ∨ (∃ names f, Some ["hello.md"] = Some names ∧ f ∈ names
                 ∧ endswith f ".md" = true
                 ∧ "posts/hello" = "posts/" +:+ splitext_root f
                 ∧ (contains "/" f = false → contains "/" (splitext_root f) = false))).
Proof.
  destruct (collect sample_parse_file ["about.md"; "wip.md"] (Some ["hello.md"]))
    as [st|] eqn:E; [|by vm_compute in E].
  exists st. split; [done|].
  assert ("posts/hello" ∈ current_slugs st) as Hin.
  { vm_compute in E. injection E as <-. cbn [current_slugs]. set_solver. }
  split; [done|]. exact (collected_slugs _ _ _ _ _ E Hin).
Defined.

(** ** Stability of the sorts *)

Lemma insert_by_filter {A} (key : A → Z) (k : Z) (x : A) (l : list A) :
  List.filter (λ y, Z.eqb (key y) k) (insert_by key x l)
  = List.filter (λ y, Z.eqb (key y) k) (x :: l).
Proof.
  induction l as [|y l IH]; [done|]. cbn [insert_by].
  destruct (Z.leb (key x) (key y)) eqn:E; [done|]. apply Z.leb_gt in E.
  cbn [List.filter] in *. rewrite IH.
  destruct (Z.eqb (key x) k) eqn:Ex, (Z.eqb (key y) k) eqn:Ey; try done.
  apply Z.eqb_eq in Ex, Ey. lia.
Qed.

Lemma sorted_by_filter {A} (key : A → Z) (k : Z) (l : list A) :
  List.filter (λ y, Z.eqb (key y) k) (sorted_by key l)
  = List.filter (λ y, Z.eqb (key y) k) l.
Proof.
  induction l as [|x l IH]; [done|]. cbn [sorted_by].
  rewrite insert_by_filter. cbn [List.filter]. by rewrite IH.
Qed.

Lemma filter_snd_zip {A} (key : A → result datetime) (k : Z) (zs : list (datetime * A)) :
  Forall (λ kx : datetime * A, key kx.2 = Ok kx.1) zs →
  List.filter (has_ord key k) zs.*2
  = (List.filter (λ kx : datetime * A, Z.eqb (dt_ord kx.1) k) zs).*2.
Proof.
  induction 1 as [|[d x] zs Hx _ IH]; [done|]. cbn [fmap list_fmap List.filter fst snd] in *.
  unfold has_ord at 1. rewrite Hx, IH. by destruct (Z.eqb (dt_ord d) k).
Qed.

(** X8.  Both post sorts are stable although they sort in reverse: posts
    of the same date come out in the order they had in the list. *)
Theorem sort_reverse_stable {A} (key : A → result datetime) (l r : list A) (k : Z) :
  sort_reverse key l = Ok r →
  List.filter (has_ord key k) r = List.filter (has_ord key k) l.
Proof.
  unfold sort_reverse. destruct (mapM key l) as [keys|] eqn:E; simpl; [|done].
  intros [= <-]. apply mapM_result_inv in E.
  assert (Forall (λ kx : datetime * A, key kx.2 = Ok kx.1) (zip keys l)) as Hkeys.
  { induction E; simpl; constructor; auto. }
  assert ((zip keys l).*2 = l) as Hsnd.
  { apply snd_zip. by rewrite (Forall2_length _ _ _ E). }
  rewrite <- Hsnd at 2. rewrite !filter_snd_zip; [|done|].
  - f_equal. rewrite List.filter_rev.
    rewrite (sorted_by_filter (λ kx : datetime * A, dt_ord kx.1)).
    by rewrite List.filter_rev, rev_involutive.
  - by rewrite <- Permutation_rev, sorted_by_perm, <- Permutation_rev.
Qed.

Lemma sort_reverse_stable_witness :
  List.filter (has_ord (all_posts_key RefDatetime.strptime) (dt_ord (DateTime 2024 3 5 0 0 0)))
    [post_a; post_b; post_old]
  = [post_a; post_b]
  ∧ sort_reverse (all_posts_key RefDatetime.strptime) [post_old; post_a; post_b]
    = Ok [post_a; post_b; post_old].
Proof.
  split; [|by vm_compute].
  rewrite (sort_reverse_stable (all_posts_key RefDatetime.strptime)
             [post_old; post_a; post_b] [post_a; post_b; post_old]).
  - vm_compute. reflexivity.
  - vm_compute. reflexivity.
Defined.

(** X9.  The variants of a format keep their manifest order among equal
    widths: in the srcset, and so for the choice of the fallback [src], of
    several usable variants of the largest width the last listed wins. *)
Theorem sorted_usable_stable (variants : list variant) (w : Z) :
  List.filter (λ v, Z.eqb (width_of v) w) (sorted_usable variants)
  = List.filter (λ v, Z.eqb (width_of v) w)
      (filter (λ v, Is_true (usable v)) variants).
Proof. apply sorted_by_filter. Qed.

(** ** When an image is rewritten *)

Lemma build_sources_no_variants (entry : manifest_entry) (sizes : string) :
  (∀ fmt, fmt ∈ fallback_priority → has_variants entry fmt = false) →
  build_sources entry sizes = [].
Proof.
  intros H. unfold build_sources. rewrite foldl_sources_step. simpl.
  rewrite !has_variants_false; [done|apply H; unfold fallback_priority; set_solver..].
Qed.

(** X10.  [_build_picture_element] gives up, and the tag is left as it
    was, exactly when the entry yields no [<source>] at all or when the first
    format in the order jpg, jpeg, png, webp, avif that has any variant
    listed has no usable one.  In particular a jpg list holding only
    unusable variants blocks the rewrite whatever the other formats offer. *)
Theorem picture_not_built (attrs : list attr) (entry : manifest_entry) :
  (_build_picture_element attrs entry = None ↔
     build_sources entry (sizes_value_of attrs) = []
     ∨ ∃ fmt, List.find (has_variants entry) fallback_priority = Some fmt
              ∧ sorted_usable (default [] (entry !! fmt)) = [])
  ∧ (∀ v vs, entry !! "jpg" = Some (v :: vs) → sorted_usable (v :: vs) = [] →
       _build_picture_element attrs entry = None).
Proof.
  assert (_build_picture_element attrs entry = None ↔
     build_sources entry (sizes_value_of attrs) = []
     ∨ ∃ fmt, List.find (has_variants entry) fallback_priority = Some fmt
              ∧ sorted_usable (default [] (entry !! fmt)) = []) as Hiff.
  { unfold _build_picture_element. split.
    - destruct (decide (entry = ∅)) as [->|_].
      { intros _. left. apply build_sources_no_variants. intros fmt _.
        unfold has_variants. by rewrite lookup_empty. }
      destruct (decide (build_sources _ _ = [])) as [|_]; [by left|].
      destruct (List.find _ _) as [fmt|] eqn:Hfind.
      + destruct (last _) as [largest|] eqn:Hlast; [done|]. intros _. right.
        exists fmt. split; [done|]. by apply last_None.
      + intros _. left. apply build_sources_no_variants. intros fmt Hin.
        apply (find_none _ _ Hfind). by apply list_elem_of_In.
    - intros [H|(fmt & Hfind & Hnone)].
      + rewrite H. by destruct (decide (entry = ∅)).
      + rewrite Hfind, Hnone. cbn [last].
        destruct (decide (entry = ∅)); [done|]. by destruct (decide _). }
  split; [done|]. intros v vs Hjpg Hnone. apply Hiff. right. exists "jpg".
  split; [|by rewrite Hjpg]. unfold fallback_priority. cbn [List.find].
  unfold has_variants at 1. by rewrite Hjpg.
Qed.

Lemma picture_not_built_witness :
  _build_picture_element cat_attrs
    {[ "jpg" := [Variant None (Some 100%Z)];
       "webp" := [Variant (Some "assets/images/cat-100.webp") (Some 100%Z)] ]} = None.
Proof.
  apply (proj2 (picture_not_built _ _) (Variant None (Some 100%Z)) []);
    vm_compute; reflexivity.
Defined.

Lemma picture_nonempty (attrs : list attr) (entry : manifest_entry) (pic : string) :
  _build_picture_element attrs entry = Some pic → is_empty pic = false.
Proof.
  unfold _build_picture_element.
  destruct (decide (entry = ∅)); [done|].
  destruct (decide (build_sources _ _ = [])); [done|].
  destruct (List.find _ _); [|done]. destruct (last _); [|done].
  by intros [= <-].
Qed.

(** X11.  An [img] start tag whose [src], cut at [?] and [#], contains
    [assets/images/] and whose base name has a manifest entry from which a
    picture can be built is replaced in the output by exactly that picture;
    the text before it and after it is emitted as for any other document. *)
Theorem rewrite_replaces (scan : string → list event) (m : Manifest) (html : string)
    (pre post : list event) (e : event) (tag : string) (attrs : list attr)
    (raw src before relative : string) (entry : manifest_entry) (pic : string) :
  html ≠ "" →
  scan html = pre ++ e :: post →
  e = StartTag tag attrs raw ∨ e = StartEndTag tag attrs raw →
  lower tag = "img" →
  attr_value attrs "src" = Some src → src ≠ "" →
  find_sub "assets/images/" (normalize_src src) = Some (before, relative) →
  m !! basename relative = Some entry →
  _build_picture_element attrs entry = Some pic →
  replace_images_with_processed scan html m
  = emitted m pre +:+ pic +:+ emitted m post.
Proof.
  intros Hh Hscan He Htag Hsrc Hne Hfind Hm Hpic.
  assert (m ≠ ∅) as Hm0.
  { intros ->. by rewrite lookup_empty in Hm. }
  assert (entry ≠ ∅) as He0.
  { intros ->. unfold _build_picture_element in Hpic. by rewrite decide_True in Hpic. }
  rewrite replace_scanned, Hscan, emitted_split by done.
  assert (emitted m [e] = pic) as ->; [|done].
  assert (_build_replacement (Parser m []) attrs = Some pic) as Hrep.
  { unfold _build_replacement. rewrite attrs_dict_lookup, Hsrc.
    destruct src; [done|]. cbn [is_empty manifest]. rewrite Hfind, Hm.
    by rewrite decide_False. }
  unfold emitted. destruct He as [-> | ->]; cbn [foldl handle];
    unfold _handle_start; rewrite Hrep, (picture_nonempty _ _ _ Hpic);
    by rewrite decide_True.
Qed.

Lemma rewrite_replaces_witness :
  replace_images_with_processed RefScanner.scan ("<p>" +:+ cat_html +:+ "</p>") cat_manifest
  = "<p>" +:+ cat_picture +:+ "</p>".
Proof.
  rewrite (rewrite_replaces RefScanner.scan cat_manifest ("<p>" +:+ cat_html +:+ "</p>")
             [StartTag "p" [] "<p>"] [EndTag "p"] (StartTag "img" cat_attrs cat_html)
             "img" cat_attrs cat_html "/assets/images/cat.jpg" "" "cat.jpg"
             cat_entry cat_picture).
  - vm_compute. reflexivity.
  - discriminate.
  - vm_compute. reflexivity.
  - left. reflexivity.
  - reflexivity.
  - vm_compute. reflexivity.
  - discriminate.
  - vm_compute. reflexivity.
  - vm_compute. reflexivity.
  - vm_compute. reflexivity.
Defined.

(** ** What the rewriter leaves alone *)

(** X12.  Markup other than [img] start tags never depends on the
    manifest: a document without [img] tags is emitted the same way under
    every manifest. *)
Theorem emitted_without_img (m m' : Manifest) (evs : list event) :
  Forall (λ e, is_img_start e = false) evs → emitted m evs = emitted m' evs.
Proof.
  induction 1 as [|e evs He _ IH]; [done|].
  change (e :: evs) with ([e] ++ evs). rewrite !emitted_app, IH. f_equal.
  unfold emitted. destruct e; try done; cbn [foldl handle is_img_start] in *;
    apply bool_decide_eq_false in He; unfold _handle_start;
    rewrite !decide_False by done; by destruct raw.
Qed.

Lemma emitted_without_img_witness :
  emitted cat_manifest [StartTag "p" [] "<p>"; Data "a"; EntityRef "amp"; EndTag "p"]
  = "<p>a&amp;</p>".
Proof.
  rewrite (emitted_without_img cat_manifest ∅).
  - vm_compute. reflexivity.
  - repeat constructor.
Defined.

Lemma contains_char_cons (c x : ascii) (s : string) :
  contains (String c "") (String x s) = Ascii.eqb x c || contains (String c "") s.
Proof.
  unfold contains. cbn [find_sub String.prefix].
  destruct (Ascii.ascii_dec c x) as [<-|Hne].
  - rewrite Ascii.eqb_refl. by destruct s.
  - assert (Ascii.eqb x c = false) as -> by (apply Ascii.eqb_neq; congruence).
    by destruct (find_sub (String c "") s) as [[? ?]|].
Qed.

(** The first occurrence of a character lies in [b] when [a] has none. *)
Lemma find_sub_char_app (c : ascii) (a b : string) :
  contains (String c "") a = false →
  find_sub (String c "") (a +:+ b)
  = match find_sub (String c "") b with
    | Some (x, y) => Some (a +:+ x, y)
    | None => None
    end.
Proof.
  induction a as [|x a IH].
  - intros _. change ("" +:+ b) with b. by destruct (find_sub _ b) as [[? ?]|].
  - rewrite contains_char_cons. intros [Hx Ha]%orb_false_iff.
    change (String x a +:+ b) with (String x (a +:+ b)). cbn [find_sub String.prefix].
    destruct (Ascii.ascii_dec c x) as [<-|_]; [by rewrite Ascii.eqb_refl in Hx|].
    rewrite (IH Ha). by destruct (find_sub _ b) as [[? ?]|].
Qed.

Lemma split_head_absent (sep s : string) :
  contains sep s = false → split_head sep s = s.
Proof. unfold contains, split_head. by destruct (find_sub sep s) as [[? ?]|]. Qed.

Lemma split_head_char (c : ascii) (a b : string) :
  contains (String c "") a = false →
  split_head (String c "") (a +:+ String c b) = a.
Proof.
  intros Ha. unfold split_head. rewrite (find_sub_char_app c a _ Ha).
  cbn [find_sub String.prefix]. destruct (Ascii.ascii_dec c c); [|done].
  destruct b; cbn [String.prefix]; apply append_nil_r.
Qed.

(** X13.  A query string or a fragment after the [src] never changes the
    path the manifest lookup works on. *)
Theorem normalize_src_query (src rest : string) :
  contains "?" src = false → contains "#" src = false →
  normalize_src (src +:+ "?" +:+ rest) = normalize_src src
  ∧ normalize_src (src +:+ "#" +:+ rest) = normalize_src src.
Proof.
  intros Hq Hf. unfold normalize_src.
  rewrite (split_head_absent "?" src Hq), (split_head_absent "#" src Hf).
  split.
  - change ("?" +:+ rest) with (String "?" rest).
    by rewrite (split_head_char "?" src rest Hq), (split_head_absent "#" src Hf).
  - assert (∃ rest', split_head "?" (src +:+ "#" +:+ rest) = src +:+ String "#" rest')
      as [rest' ->].
    { unfold split_head. rewrite (find_sub_char_app "?" src _ Hq).
      change ("#" +:+ rest) with (String "#" rest). cbn [find_sub String.prefix].
      destruct (Ascii.ascii_dec "?" "#"); [done|].
      destruct (find_sub "?" rest) as [[x y]|]; by eexists. }
    by rewrite (split_head_char "#" src rest' Hf).
Qed.

Lemma normalize_src_query_witness :
  normalize_src ("/assets/images/cat.jpg" +:+ "?" +:+ "v=3#top") = "assets/images/cat.jpg".
Proof.
  destruct (normalize_src_query "/assets/images/cat.jpg" "v=3#top") as [-> _];
    vm_compute; reflexivity.
Defined.

(** ** The tag index *)

Lemma tags_get_add (tag t : string) (pd : page_data) (tags : list (string * list page_data)) :
  tags_get (tags_add tag pd tags) t
  = tags_get tags t ++ (if decide (tag = t) then [pd] else []).
Proof.
  induction tags as [|[t0 posts] rest IH]; simpl.
  - destruct (decide (tag = t)); done.
  - destruct (decide (t0 = tag)) as [->|Hne]; simpl.
    + destruct (decide (tag = t)); [done|by rewrite app_nil_r].
    + destruct (decide (t0 = t)) as [->|?]; [|done].
      rewrite decide_False by done. by rewrite app_nil_r.
Qed.

Lemma tags_add_keys (tag : string) (pd : page_data) (tags : list (string * list page_data)) :
  (tags_add tag pd tags).*1 = if decide (tag ∈ tags.*1) then tags.*1 else tags.*1 ++ [tag].
Proof.
  induction tags as [|[t0 posts] rest IH].
  - simpl. destruct (decide (tag ∈ [])) as [H|_]; [by apply not_elem_of_nil in H|done].
  - cbn [tags_add]. destruct (decide (t0 = tag)) as [->|Hne]; rewrite !fmap_cons; cbn [fst].
    + rewrite decide_True; [done|left].
    + rewrite IH. destruct (decide (tag ∈ rest.*1)) as [Hin|Hin].
      * rewrite decide_True; [done|by right].
      * rewrite decide_False; [done|]. intros [?|?]%elem_of_cons; done.
Qed.

Lemma tags_add_all (pd : page_data) (names : list string)
    (tags : list (string * list page_data)) (t : string) :
  tags_get (foldl (λ tg tag, tags_add tag pd tg) tags names) t
  = tags_get tags t ++ map (λ _, pd) (List.filter (λ n, bool_decide (n = t)) names)
  ∧ (NoDup tags.*1 → NoDup (foldl (λ tg tag, tags_add tag pd tg) tags names).*1)
  ∧ (Forall (λ tp : string * list page_data, tp.2 ≠ []) tags →
     Forall (λ tp : string * list page_data, tp.2 ≠ [])
            (foldl (λ tg tag, tags_add tag pd tg) tags names)).
Proof.
  revert tags. induction names as [|n names IH]; intros tags; simpl.
  - by rewrite app_nil_r.
  - destruct (IH (tags_add n pd tags)) as (Hget & Hnd & Hne). split_and!.
    + rewrite Hget, tags_get_add, <- app_assoc. f_equal.
      destruct (decide (n = t)) as [Heq|Hneq].
      * by rewrite bool_decide_true.
      * by rewrite bool_decide_false.
    + intros H. apply Hnd. rewrite tags_add_keys. destruct (decide _); [done|].
      apply NoDup_app. split_and!; [done| |apply NoDup_singleton].
      intros x Hx ->%list_elem_of_singleton. done.
    + intros H. apply Hne. clear -H. induction H as [|[t0 posts] rest Hp Hrest IH']; simpl.
      * by repeat constructor.
      * destruct (decide (t0 = n)); constructor; simpl in *; try done.
        by destruct posts.
Qed.

(** X14.  After the directory walks the tag index has one entry per tag,
    none of them empty, and the entry of a tag lists exactly the collected
    posts that carry the tag, in the order they were collected and once for
    each time the tag occurs in a post. *)
Theorem tag_index (parse_file : string → option (page_data * string))
    (listdir_content : list string) (listdir_posts : option (list string)) (st : site) :
  collect parse_file listdir_content listdir_posts = Ok st →
  NoDup (tags st).*1
  ∧ Forall (λ tp : string * list page_data, tp.2 ≠ []) (tags st)
  ∧ (∀ tag, tags_get (tags st) tag = flat_map (tag_occurrences tag) (all_posts st))
  ∧ Forall (λ pd, get pd "layout" = VStr "post") (all_posts st).
Proof.
  set (inv := λ st : site,
    NoDup (tags st).*1
    ∧ Forall (λ tp : string * list page_data, tp.2 ≠ []) (tags st)
    ∧ (∀ tag, tags_get (tags st) tag = flat_map (tag_occurrences tag) (all_posts st))
    ∧ Forall (λ pd, get pd "layout" = VStr "post") (all_posts st)).
  assert (∀ st0 f, inv st0 → inv (content_step parse_file st0 f)) as Hcs.
  { intros st0 f H. unfold content_step. by repeat case_match. }
  assert (∀ st0 st1 f, inv st0 → posts_step parse_file st0 f = Ok st1 → inv st1) as Hps.
  { intros st0 st1 f (Hnd & Hne & Hget & Hl). unfold posts_step.
    destruct (endswith f ".md"); [|by intros [= <-]].
    destruct (parse_file _) as [[pd html]|]; [|by intros [= <-]].
    destruct (decide (pd = ∅)); [by intros [= <-]|].
    destruct (is_draft pd); [by intros [= <-]|].
    destruct (decide (get pd "layout" = VStr "post")); [|by intros [= <-]].
    destruct (iter_tags (get pd "tags")) as [names|] eqn:En; simpl; [|done].
    intros [= <-]. unfold inv. cbn [tags all_posts].
    destruct (tags_add_all pd names (tags st0) "") as (_ & Hnd' & Hne').
    split_and!; [by apply Hnd'|by apply Hne'| |].
    - intros tag. destruct (tags_add_all pd names (tags st0) tag) as (-> & _).
      rewrite flat_map_app, Hget. f_equal. cbn [flat_map]. rewrite app_nil_r.
      unfold tag_occurrences. by rewrite En.
    - apply Forall_app. split; [done|]. by constructor. }
  assert (∀ l s0, inv s0 → inv (foldl (content_step parse_file) s0 l)) as Hfold.
  { induction l as [|f l IH]; intros s0 Hs; simpl; [done|]. by apply IH, Hcs. }
  unfold collect. intros H.
  assert (inv (foldl (content_step parse_file) empty_site listdir_content)) as H0.
  { apply Hfold. unfold inv. simpl. split_and!; [constructor|done|done|done]. }
  destruct listdir_posts as [names|]; [|by injection H as <-].
  revert H H0. generalize (foldl (content_step parse_file) empty_site listdir_content).
  induction names as [|f names IH]; intros s0; simpl; [by intros [= <-]|].
  destruct (posts_step parse_file s0 f) as [s1|] eqn:E; simpl; [|done].
  intros H Hs. apply (IH s1 H). by eapply Hps.
Qed.

Lemma tag_index_witness :
  ∃ st, collect sample_parse_file ["about.md"; "wip.md"] (Some ["hello.md"]) = Ok st
        ∧ tags_get (tags st) "rocq" = flat_map (tag_occurrences "rocq") (all_posts st)
        ∧ (tags st).*1 = ["rocq"].
Proof.
  destruct (collect sample_parse_file ["about.md"; "wip.md"] (Some ["hello.md"]))
    as [st|] eqn:E; [|by vm_compute in E].
  exists st. split; [done|]. split.
  - by apply (tag_index sample_parse_file) in E as (_ & _ & H & _).
  - vm_compute in E. injection E as <-. reflexivity.
Defined.

(** ** [parse_file] *)

Lemma normalize_date_lookup (fromisoformat : string → option datetime)
    (pc : page_data) (k : string) :
  (k ≠ "date" → normalize_date fromisoformat pc !! k = pc !! k)
  ∧ (is_Some (normalize_date fromisoformat pc !! "date") ↔ is_Some (pc !! "date")).
Proof.
  unfold normalize_date. destruct (pc !! "date") as [value|] eqn:E.
  - assert (∀ v, (k ≠ "date" → <["date" := v]> pc !! k = pc !! k)
                 ∧ (is_Some (<["date" := v]> pc !! "date") ↔ is_Some (Some value))) as Hins.
    { intros v. split; [intros ?; by rewrite lookup_insert_ne|].
      rewrite lookup_insert_eq. split; eauto. }
    destruct (truthy value); [|by rewrite E].
    destruct value; try apply Hins;
      (destruct (fromisoformat _); [apply Hins|by rewrite E]).
  - by rewrite E.
Qed.



(** ** URLs of the listed documents *)

Lemma prefix_app_cancel (a b c : string) :
  String.prefix (a +:+ b) (a +:+ c) = String.prefix b c.
Proof.
  induction a as [|x a IH]; [done|].
  change (String x a +:+ b) with (String x (a +:+ b)).
  change (String x a +:+ c) with (String x (a +:+ c)).
  cbn [String.prefix]. by destruct (Ascii.ascii_dec x x).
Qed.

Lemma basename_no_slash (s : string) : contains "/" s = false → basename s = s.
Proof. destruct s as [|c s]; [done|]. intros H. cbn [basename]. by rewrite H. Qed.

Lemma basename_app (a b : string) : basename (a +:+ "/" +:+ b) = basename b.
Proof.
  induction a as [|x a IH].
  - change ("" +:+ "/" +:+ b) with (String "/" b). cbn [basename].
    by rewrite contains_slash_cons.
  - change (String x a +:+ "/" +:+ b) with (String x (a +:+ "/" +:+ b)). cbn [basename].
    by rewrite contains_slash_cons, contains_slash_app, orb_true_r.
Qed.

Lemma rev_app_append (s t : string) : String.rev_app s t = String.rev s +:+ t.
Proof.
  unfold String.rev. revert t. induction s as [|a s IH]; intros t; [done|].
  cbn [String.rev_app]. by rewrite (IH (String a t)), (IH (String a "")), append_assoc.
Qed.

Lemma rev_cons (c : ascii) (s : string) :
  String.rev (String c s) = String.rev s +:+ String c "".
Proof. unfold String.rev at 1. cbn [String.rev_app]. apply rev_app_append. Qed.

Lemma split_slash_no_slash (cur s : string) :
  contains "/" s = false → split_slash cur s = [String.rev cur +:+ s].
Proof.
  revert cur. induction s as [|c s IH]; intros cur.
  - intros _. cbn [split_slash]. by rewrite append_nil_r.
  - rewrite contains_slash_cons. intros [Hc Hs]%orb_false_iff.
    cbn [split_slash]. rewrite Hc, (IH _ Hs), rev_cons.
    by rewrite append_assoc.
Qed.

Lemma split_slash_app (cur a b : string) :
  contains "/" a = false →
  split_slash cur (a +:+ "/" +:+ b) = (String.rev cur +:+ a) :: split_slash "" b.
Proof.
  revert cur. induction a as [|c a IH]; intros cur.
  - intros _. change ("" +:+ "/" +:+ b) with (String "/" b). cbn [split_slash].
    change (Ascii.eqb "/" "/") with true. cbn match. by rewrite append_nil_r.
  - rewrite contains_slash_cons. intros [Hc Ha]%orb_false_iff.
    change (String c a +:+ "/" +:+ b) with (String c (a +:+ "/" +:+ b)).
    cbn [split_slash]. rewrite Hc, (IH _ Ha), rev_cons.
    by rewrite append_assoc.
Qed.

Lemma split_slash_join (comps : list string) :
  comps ≠ [] → Forall (λ c, contains "/" c = false) comps →
  split_slash "" (join "/" comps) = comps.
Proof.
  induction comps as [|c comps IH]; [done|]. intros _ H.
  inversion H as [|? ? Hc Hrest]; subst. destruct comps as [|c' comps].
  - cbn [join]. by rewrite split_slash_no_slash.
  - change (join "/" (c :: c' :: comps)) with (c +:+ "/" +:+ join "/" (c' :: comps)).
    rewrite split_slash_app by done. by rewrite IH.
Qed.

Lemma norm_comps_plain (new_comps comps : list string) :
  Forall plain_name comps →
  norm_comps false new_comps comps = List.rev new_comps ++ comps.
Proof.
  revert new_comps. induction comps as [|c comps IH]; intros new_comps H.
  - cbn [norm_comps]. by rewrite app_nil_r.
  - inversion H as [|? ? (_ & H0 & H1 & H2) Hrest]; subst. cbn [norm_comps].
    rewrite decide_False by (by intros [?|?]).
    rewrite decide_True by (by left).
    rewrite IH by done. cbn [List.rev]. by rewrite <- app_assoc.
Qed.

(** [normpath] changes nothing in a relative path made of plain names. *)
Lemma normpath_join (c : string) (comps : list string) :
  Forall plain_name (c :: comps) →
  normpath (join "/" (c :: comps)) = join "/" (c :: comps).
Proof.
  intros H. unfold normpath.
  assert (∃ x t, join "/" (c :: comps) = String x t ∧ x ≠ "/"%char) as (x & t & E & Hx).
  { inversion H as [|? ? (Hs & H0 & _) _]; subst. destruct c as [|x c]; [done|].
    rewrite contains_slash_cons in Hs. apply orb_false_iff in Hs as [Hx _].
    apply Ascii.eqb_neq in Hx. destruct comps; by eexists _, _. }
  assert (split_slash "" (join "/" (c :: comps)) = c :: comps) as ->.
  { apply split_slash_join; [done|]. eapply Forall_impl; [done|]. by intros ? []. }
  rewrite E. unfold startswith. cbn [is_empty String.prefix].
  destruct (Ascii.ascii_dec "/" x) as [<-|_]; [done|].
  rewrite norm_comps_plain by done. cbn [List.rev app].
  change ("" +:+ join "/" (c :: comps)) with (join "/" (c :: comps)). by rewrite E.
Qed.

(** X16.  The URL of a document listed in the posts directory is
    [/posts/<slug>].  A document listed in the content directory gets
    [/<slug>], or [/] for the slug [index], unless its file name starts
    with [posts]: the test [normpath(filepath).startswith("content/posts")]
    then takes it for a post and the URL is [/posts/<slug>] as well. *)
Theorem page_url_listed (name : string) :
  plain_name name →
  page_url (path_join POSTS_DIR name) = "/posts/" +:+ splitext_root name
  ∧ page_url (path_join CONTENT_DIR name)
    = if startswith name "posts" then "/posts/" +:+ splitext_root name
      else if decide (splitext_root name = "index") then "/"
      else "/" +:+ splitext_root name.
Proof.
  intros Hn. pose proof Hn as (Hs & H0 & _).
  assert (startswith name "/" = false) as Hlead.
  { destruct name as [|x name]; [done|]. rewrite contains_slash_cons in Hs.
    apply orb_false_iff in Hs as [Hx _]. apply Ascii.eqb_neq in Hx.
    unfold startswith. cbn [String.prefix]. by destruct (Ascii.ascii_dec "/" x). }
  assert (path_join POSTS_DIR name = join "/" ["content"; "posts"; name]) as ->.
  { unfold path_join. by rewrite Hlead. }
  assert (path_join CONTENT_DIR name = join "/" ["content"; name]) as ->.
  { unfold path_join. by rewrite Hlead. }
  assert (plain_name "content" ∧ plain_name "posts") as [Hc Hp] by (by repeat split).
  unfold page_url.
  rewrite !normpath_join by (repeat (constructor; [done|]); constructor).
  change (normpath POSTS_DIR) with ("content/" +:+ "posts").
  change (join "/" ["content"; "posts"; name]) with ("content/" +:+ "posts" +:+ "/" +:+ name).
  change (join "/" ["content"; name]) with ("content/" +:+ name).
  unfold startswith. rewrite !prefix_app_cancel.
  change ("content/" +:+ "posts" +:+ "/" +:+ name) with ("content/posts" +:+ "/" +:+ name).
  change ("content/" +:+ name) with ("content" +:+ "/" +:+ name).
  rewrite !basename_app, (basename_no_slash name Hs). split; [|done].
  assert (String.prefix "posts" ("posts" +:+ "/" +:+ name) = true) as ->; [|done].
  apply prefix_app_iff. by eexists.
Qed.

Lemma page_url_listed_witness :
  page_url (path_join CONTENT_DIR "postscript.md") = "/posts/postscript"
  ∧ page_url (path_join POSTS_DIR "hello.md") = "/posts/hello".
Proof.
  destruct (page_url_listed "postscript.md") as [_ ->]; [by repeat split|].
  destruct (page_url_listed "hello.md") as [-> _]; [by repeat split|].
  split; vm_compute; reflexivity.
Defined.

(** ** The hash cache *)

Lemma has_file_changed_answer (md5 : string → string) (cache_dir rel data text : string)
    (cache : gmap string string) :
  cache !! cache_file_of cache_dir rel = Some text →
  (has_file_changed md5 cache_dir rel data cache).1
  = negb (bool_decide (py_strip text = md5 data)).
Proof.
  intros E. unfold has_file_changed. rewrite E.
  destruct (decide (py_strip text = md5 data)) as [Heq|Hne].
  - by rewrite bool_decide_true.
  - by rewrite bool_decide_false.
Qed.

Lemma has_file_changed_entry (md5 : string → string) (cache_dir rel data : string)
    (cache : gmap string string) :
  py_strip (md5 data) = md5 data →
  ∃ text, (has_file_changed md5 cache_dir rel data cache).2 !! cache_file_of cache_dir rel
          = Some text
          ∧ py_strip text = md5 data.
Proof.
  intros Hs. unfold has_file_changed.
  destruct (cache !! cache_file_of cache_dir rel) as [text|] eqn:E.
  - destruct (decide (py_strip text = md5 data)); cbn [snd].
    + by exists text.
    + exists (md5 data). by rewrite lookup_insert_eq.
  - exists (md5 data). cbn [snd]. by rewrite lookup_insert_eq.
Qed.

Lemma has_file_changed_other (md5 : string → string) (cache_dir rel data k : string)
    (cache : gmap string string) :
  k ≠ cache_file_of cache_dir rel →
  (has_file_changed md5 cache_dir rel data cache).2 !! k = cache !! k.
Proof.
  intros Hk. unfold has_file_changed.
  destruct (cache !! cache_file_of cache_dir rel) as [text|]; cbn [snd].
  - destruct (decide _); cbn [snd]; [done|]. by rewrite lookup_insert_ne.
  - by rewrite lookup_insert_ne.
Qed.

(** X17.  [has_file_changed] answers no exactly when the cache file of the
    path exists and holds, up to surrounding white space, the digest of the
    data; it then leaves the cache as it is, and it never touches the cache
    file of another path.  For a digest without surrounding white space (a
    hex digest has none) a second call on the same data answers no and
    changes nothing, and a later call answers yes exactly when the digest
    differs from the one of this call. *)
Theorem file_change_detection (md5 : string → string) (cache_dir rel data : string)
    (cache : gmap string string) :
  py_strip (md5 data) = md5 data →
  let r := has_file_changed md5 cache_dir rel data cache in
  (r.1 = false ↔ ∃ text, cache !! cache_file_of cache_dir rel = Some text
                          ∧ py_strip text = md5 data)
  ∧ (r.1 = false → r.2 = cache)
  ∧ (∀ k, k ≠ cache_file_of cache_dir rel → r.2 !! k = cache !! k)
  ∧ has_file_changed md5 cache_dir rel data r.2 = (false, r.2)
  ∧ ∀ data', (has_file_changed md5 cache_dir rel data' r.2).1
             = negb (bool_decide (md5 data' = md5 data)).
Proof.
  intros Hs r.
  destruct (has_file_changed_entry md5 cache_dir rel data cache Hs) as (text & Ht & Hst).
  fold r in Ht. split_and!.
  - unfold r, has_file_changed.
    destruct (cache !! cache_file_of cache_dir rel) as [text0|].
    + destruct (decide (py_strip text0 = md5 data)); cbn [fst].
      * split; [by exists text0|done].
      * split; [done|]. by intros (? & [= <-] & ?).
    + cbn [fst]. split; [done|]. by intros (? & [=] & _).
  - unfold r, has_file_changed.
    destruct (cache !! cache_file_of cache_dir rel) as [text0|]; [|done].
    by destruct (decide (py_strip text0 = md5 data)).
  - intros k Hk. by apply has_file_changed_other.
  - unfold has_file_changed at 1. rewrite Ht. by rewrite decide_True.
  - intros data'. rewrite (has_file_changed_answer md5 _ _ _ text) by done.
    rewrite Hst. f_equal. apply bool_decide_ext. split; congruence.
Qed.

Lemma file_change_detection_witness :
  has_file_changed sample_md5 ".cache" "content/index.md" "# Home"
    (has_file_changed sample_md5 ".cache" "content/index.md" "# Home" ∅).2
  = (false, {[ ".cache/content__index.md.hash" := "6" ]}).
Proof.
  destruct (file_change_detection sample_md5 ".cache" "content/index.md" "# Home" ∅)
    as (_ & _ & _ & -> & _); [vm_compute; reflexivity|].
  f_equal.
Defined.

Lemma replace_sep_app (a b : string) :
  replace_sep (a +:+ b) = replace_sep a +:+ replace_sep b.
Proof.
  induction a as [|c a IH]; [done|].
  change (String c a +:+ b) with (String c (a +:+ b)). cbn [replace_sep].
  rewrite IH. destruct (Ascii.eqb c "/"); [|done]. by rewrite append_assoc.
Qed.

Lemma append_inj_l (a b c : string) : a +:+ b = a +:+ c → b = c.
Proof.
  induction a as [|x a IH]; [done|].
  change (String x a +:+ b) with (String x (a +:+ b)).
  change (String x a +:+ c) with (String x (a +:+ c)). intros [= H]. by apply IH.
Qed.

(** X18.  The cache file name does not tell a slash from two underscores:
    the distinct paths [a/b] and [a__b] share one cache file.  A check of
    the second between two checks of the first therefore makes the second
    check of the first answer yes although its content is the same, when
    the two contents have different digests. *)
Theorem hash_cache_collision (md5 : string → string) (cache_dir a b data1 data2 : string)
    (cache : gmap string string) :
  py_strip (md5 data2) = md5 data2 →
  md5 data1 ≠ md5 data2 →
  let rel1 := a +:+ "/" +:+ b in
  let rel2 := a +:+ "__" +:+ b in
  rel1 ≠ rel2
  ∧ cache_file_of cache_dir rel1 = cache_file_of cache_dir rel2
  ∧ (has_file_changed md5 cache_dir rel1 data1
       (has_file_changed md5 cache_dir rel2 data2
          (has_file_changed md5 cache_dir rel1 data1 cache).2).2).1 = true.
Proof.
  intros Hs Hne rel1 rel2.
  assert (cache_file_of cache_dir rel1 = cache_file_of cache_dir rel2) as Hcf.
  { unfold cache_file_of, rel1, rel2. by rewrite !replace_sep_app. }
  split_and!; [|done|].
  - unfold rel1, rel2. intros Heq%append_inj_l. discriminate Heq.
  - destruct (has_file_changed_entry md5 cache_dir rel2 data2
                (has_file_changed md5 cache_dir rel1 data1 cache).2 Hs) as (text & Ht & Hst).
    rewrite <- Hcf in Ht.
    rewrite (has_file_changed_answer md5 _ _ _ text) by done.
    rewrite Hst, bool_decide_false; [done|congruence].
Qed.

Lemma hash_cache_collision_witness :
  cache_file_of ".cache" "content/a.md" = cache_file_of ".cache" "content__a.md"
  ∧ (has_file_changed sample_md5 ".cache" "content/a.md" "one"
       (has_file_changed sample_md5 ".cache" "content__a.md" "three"
          (has_file_changed sample_md5 ".cache" "content/a.md" "one" ∅).2).2).1 = true.
Proof.
  destruct (hash_cache_collision sample_md5 ".cache" "content" "a.md" "one" "three" ∅)
    as (_ & H1 & H2); [vm_compute; reflexivity|by vm_compute|].
  split; [exact H1|exact H2].
Defined.

(** ** Template lookup *)

Lemma register_lookup (rel_path : string) (templates : gmap string string)
    (k key : string) :
  register rel_path templates k !! key
  = match templates !! key with
    | Some t => Some t
    | None => if decide (key = k) then Some rel_path else None
    end.
Proof.
  unfold register. destruct (decide (key = k)) as [->|Hne].
  - destruct (templates !! k) as [t|] eqn:E; [by rewrite E|].
    by rewrite lookup_insert_eq.
  - destruct (templates !! k) as [t|]; [by destruct (templates !! key)|].
    rewrite lookup_insert_ne by done. by destruct (templates !! key).
Qed.

Lemma register_keys_lookup (rel_path : string) (keys : list string)
    (templates : gmap string string) (key : string) :
  foldl (register rel_path) templates keys !! key
  = match templates !! key with
    | Some t => Some t
    | None => if bool_decide (key ∈ keys) then Some rel_path else None
    end.
Proof.
  revert templates. induction keys as [|k keys IH]; intros templates; cbn [foldl].
  - by destruct (templates !! key).
  - rewrite IH, register_lookup. destruct (templates !! key) as [t|]; [done|].
    destruct (decide (key = k)) as [->|Hne].
    + rewrite bool_decide_true; [done|left].
    + apply (f_equal (λ b : bool, if b then Some rel_path else None)).
      apply bool_decide_ext. rewrite elem_of_cons. split; [by right|by intros [?|?]].
Qed.

(** X19.  A template key (a relative path, that path without its
    extension, or the bare file name without extension) resolves to the first
    file of the walk that has an allowed extension and goes by that key;
    files walked later never replace it, and a key no such file goes by is
    absent. *)
Theorem templates_first_wins (walk : list string) (key : string) :
  load_templates walk !! key
  = head (List.filter (λ rel_path, allowed_template rel_path
                                   && bool_decide (key ∈ template_keys rel_path)) walk).
Proof.
  unfold load_templates.
  assert (∀ templates,
    foldl (λ templates rel_path,
             if allowed_template rel_path
             then foldl (register rel_path) templates (template_keys rel_path)
             else templates) templates walk !! key
    = match templates !! key with
      | Some t => Some t
      | None => head (List.filter (λ rel_path, allowed_template rel_path
                        && bool_decide (key ∈ template_keys rel_path)) walk)
      end) as H.
  { induction walk as [|p walk IH]; intros templates; cbn [foldl List.filter].
    - by destruct (templates !! key).
    - rewrite IH. destruct (allowed_template p); cbn [andb].
      + rewrite register_keys_lookup. destruct (templates !! key); [done|].
        by destruct (bool_decide (key ∈ template_keys p)).
      + done. }
  by rewrite H, lookup_empty.
Qed.

(** ** Quoting of attribute values *)

Lemma count_char_app (c : ascii) (a b : string) :
  count_char c (a +:+ b) = count_char c a + count_char c b.
Proof.
  induction a as [|x a IH]; [done|].
  change (String x a +:+ b) with (String x (a +:+ b)). cbn [count_char].
  rewrite IH. lia.
Qed.

Lemma count_char_escape (c : ascii) (value : string) :
  c ∈ ["034"%char; "<"%char; ">"%char] → count_char c (escape value) = 0.
Proof.
  intros Hc. induction value as [|x value IH]; [done|].
  cbn [escape]. rewrite count_char_app, IH, Nat.add_0_r. unfold escape_char.
  destruct (Ascii.eqb x "&") eqn:E1;
    [by repeat (apply elem_of_cons in Hc as [->|Hc]; [done|]); apply not_elem_of_nil in Hc|].
  destruct (Ascii.eqb x "<") eqn:E2;
    [by repeat (apply elem_of_cons in Hc as [->|Hc]; [done|]); apply not_elem_of_nil in Hc|].
  destruct (Ascii.eqb x ">") eqn:E3;
    [by repeat (apply elem_of_cons in Hc as [->|Hc]; [done|]); apply not_elem_of_nil in Hc|].
  destruct (Ascii.eqb x "034") eqn:E4;
    [by repeat (apply elem_of_cons in Hc as [->|Hc]; [done|]); apply not_elem_of_nil in Hc|].
  destruct (Ascii.eqb x "039") eqn:E5;
    [by repeat (apply elem_of_cons in Hc as [->|Hc]; [done|]); apply not_elem_of_nil in Hc|].
  cbn [count_char].
  repeat (apply elem_of_cons in Hc as [->|Hc]; [by rewrite ?E2, ?E3, ?E4|]).
  by apply not_elem_of_nil in Hc.
Qed.

Lemma count_char_concat (c : ascii) (parts : list string) :
  count_char c (String.concat "" parts) = foldr (λ s n, count_char c s + n) 0 parts.
Proof.
  induction parts as [|p parts IH]; [done|]. cbn [foldr]. rewrite <- IH.
  destruct parts as [|q parts]; cbn [String.concat].
  - cbn [count_char]. lia.
  - by rewrite !count_char_app.
Qed.

(** X20.  When no attribute name holds a double quote or an angle bracket,
    the text [_render_attributes] builds has exactly two double quotes for
    each attribute written with a value, those around the value, and no
    angle bracket: whatever the value is, it can neither end its quotation
    nor the tag. *)
Theorem render_attributes_quotes (attrs : list attr) :
  Forall (λ a : attr, ∀ c, c ∈ ["034"%char; "<"%char; ">"%char] → count_char c a.1 = 0)
         attrs →
  count_char "034" (_render_attributes attrs) = 2 * length (List.filter has_value attrs)
  ∧ count_char "<" (_render_attributes attrs) = 0
  ∧ count_char ">" (_render_attributes attrs) = 0.
Proof.
  unfold _render_attributes. intros H.
  assert (∀ c, c ∈ ["034"%char; "<"%char; ">"%char] →
    count_char c (String.concat ""
      (map (λ a : attr,
              match a.2 with
              | None => " " +:+ a.1
              | Some value => " " +:+ a.1 +:+ "=" +:+ dquote +:+ escape value +:+ dquote
              end) attrs))
    = (if Ascii.eqb c "034" then 2 else 0) * length (List.filter has_value attrs)) as Hall.
  { intros c Hc. rewrite count_char_concat.
    induction H as [|[name value] attrs Hn _ IH]; cbn [map foldr List.filter]; [cbn [length]; lia|].
    rewrite IH. specialize (Hn c Hc). unfold has_value. cbn [fst snd] in *.
    destruct value as [value|].
    - rewrite !count_char_app, Hn, (count_char_escape c value Hc). cbn [length].
      repeat (apply elem_of_cons in Hc as [->|Hc]; [vm_compute count_char; cbn; lia|]).
      by apply not_elem_of_nil in Hc.
    - rewrite !count_char_app, Hn.
      repeat (apply elem_of_cons in Hc as [->|Hc]; [vm_compute count_char; cbn; lia|]).
      by apply not_elem_of_nil in Hc. }
  split_and!.
  - rewrite Hall; [done|left].
  - rewrite Hall; [done|right; left].
  - rewrite Hall; [done|right; right; left].
Qed.

Lemma render_attributes_quotes_witness :
  count_char "034" (_render_attributes [("alt", Some ("a " +:+ dquote +:+ "cat" +:+ dquote +:+ " >"));
                                        ("hidden", None)]) = 2.
Proof.
  destruct (render_attributes_quotes
              [("alt", Some ("a " +:+ dquote +:+ "cat" +:+ dquote +:+ " >")); ("hidden", None)])
    as [-> _]; [|reflexivity].
  repeat constructor; cbn [fst]; intros c Hc;
    repeat (apply elem_of_cons in Hc as [->|Hc]; [reflexivity|]);
    by apply not_elem_of_nil in Hc.
Defined.

(** ** The sitemap *)

Lemma parse_file_url (fromisoformat : string → option datetime)
    (load_document : string → option (page_data * string)) (filepath : string)
    (pd : page_data) (html : string) :
  parse_file fromisoformat load_document filepath = Some (pd, html) →
  get pd "url" = VStr (page_url filepath).
Proof.
  unfold parse_file. destruct (load_document filepath) as [[front body]|]; [|done].
  intros [= <- _]. unfold get.
  rewrite (proj1 (normalize_date_lookup fromisoformat _ "url")) by done.
  by rewrite lookup_insert_eq.
Qed.

(** X21.  With [parse_file] as the compile step of the two directory walks,
    every entry of the sitemap is the URL derived from the path of a listed
    [.md] file of the content or of the posts directory; a [url] given in
    the front matter never reaches the sitemap. *)
Theorem sitemap_urls (fromisoformat : string → option datetime)
    (load_document : string → option (page_data * string))
    (listdir_content : list string) (listdir_posts : option (list string)) (st : site) :
  collect (parse_file fromisoformat load_document) listdir_content listdir_posts = Ok st →
  Forall (λ v, ∃ filename, endswith filename ".md" = true
            ∧ ((filename ∈ listdir_content
                ∧ v = VStr (page_url (path_join CONTENT_DIR filename)))
               ∨ (filename ∈ default [] listdir_posts
                  ∧ v = VStr (page_url (path_join POSTS_DIR filename)))))
         (sitemap_list st).
Proof.
  set (P := λ v, ∃ filename, endswith filename ".md" = true
            ∧ ((filename ∈ listdir_content
                ∧ v = VStr (page_url (path_join CONTENT_DIR filename)))
               ∨ (filename ∈ default [] listdir_posts
                  ∧ v = VStr (page_url (path_join POSTS_DIR filename))))).
  set (pf := parse_file fromisoformat load_document).
  assert (∀ l st0, (∀ f, f ∈ l → f ∈ listdir_content) → Forall P (sitemap_list st0) →
            Forall P (sitemap_list (foldl (content_step pf) st0 l))) as Hc.
  { induction l as [|f l IH]; intros st0 Hl H0; cbn [foldl]; [done|].
    apply IH; [intros f' ?; apply Hl; by right|].
    unfold content_step. destruct (endswith f ".md") eqn:Emd; [|done].
    destruct (pf _) as [[pd html]|] eqn:Epf; [|done].
    destruct (decide (pd = ∅)); [done|]. destruct (is_draft pd); [done|].
    cbn [sitemap_list]. apply Forall_app. split; [done|]. constructor; [|done].
    exists f. split; [done|]. left. split; [apply Hl; left|].
    by apply (parse_file_url fromisoformat load_document _ _ html). }
  assert (∀ l st0 st1, (∀ f, f ∈ l → f ∈ default [] listdir_posts) →
            for_each (posts_step pf) st0 l = Ok st1 →
            Forall P (sitemap_list st0) → Forall P (sitemap_list st1)) as Hp.
  { induction l as [|f l IH]; intros st0 st1 Hl; cbn [for_each foldl]; simpl.
    { by intros [= <-]. }
    destruct (posts_step pf st0 f) as [st'|] eqn:E; simpl; [|done].
    intros Hrest H0. apply (IH st' st1); [intros f' ?; apply Hl; by right|done|].
    revert E. unfold posts_step. destruct (endswith f ".md") eqn:Emd; [|by intros [= <-]].
    destruct (pf _) as [[pd html]|] eqn:Epf; [|by intros [= <-]].
    destruct (decide (pd = ∅)); [by intros [= <-]|].
    destruct (is_draft pd); [by intros [= <-]|].
    assert (Forall P (sitemap_list st0 ++ [get pd "url"])) as Hnew.
    { apply Forall_app. split; [done|]. constructor; [|done].
      exists f. split; [done|]. right. split; [apply Hl; left|].
      by apply (parse_file_url fromisoformat load_document _ _ html). }
    destruct (decide (get pd "layout" = VStr "post")).
    - destruct (iter_tags _); simpl; [|done]. by intros [= <-].
    - by intros [= <-]. }
  unfold collect. fold pf. intros H.
  assert (Forall P (sitemap_list (foldl (content_step pf) empty_site listdir_content))) as H0.
  { apply Hc; [done|constructor]. }
  destruct listdir_posts as [names|]; [|by injection H as <-].
  by apply (Hp names _ st (λ f Hf, Hf) H).
Qed.

Lemma sitemap_urls_witness :
  ∃ st, collect sample_parse_file ["about.md"; "wip.md"] (Some ["hello.md"]) = Ok st
        ∧ Forall (λ v, ∃ filename, endswith filename ".md" = true
            ∧ ((filename ∈ ["about.md"; "wip.md"]
                ∧ v = VStr (page_url (path_join CONTENT_DIR filename)))
               ∨ (filename ∈ default [] (Some ["hello.md"])
                  ∧ v = VStr (page_url (path_join POSTS_DIR filename)))))
         (sitemap_list st).
Proof.
  destruct (collect sample_parse_file ["about.md"; "wip.md"] (Some ["hello.md"]))
    as [st|] eqn:E; [|by vm_compute in E].
  exists st. split; [done|].
  exact (sitemap_urls RefDatetime.fromisoformat sample_documents _ _ _ E).
Defined.
